(** * Scrollytelling choreography engine: schema validator, overlap detector,
      timing calculus and scroll visibility controller.

    Shallow embedding of
      - scroll-timing-config.js  (SCROLL_TIMING, calculateSectionHeight,
                                  calculateCardThreshold, calculateFadeZones)
      - section-validator.js     (calculateHeroBounds, parsePosition,
                                  calculateImageBounds, boxesOverlap,
                                  validateHeroOverlap, validateAllSections)
      - section-schema.js        (validateSchema)
      - section-builder.js       (buildSection, setupScrollBehavior /
                                  updateSectionOpacity)
      - positioning-helpers.js   (positions, getPosition)

    Number model.  A JavaScript number is embedded as an exact rational
    ([Q]); where the source can produce NaN (parseFloat on text that is not
    a number) the type [JsNum] adds it.  Binary rounding of IEEE-754
    doubles, infinities and the sign of zero are outside the model;
    module [Binary64] evaluates one function on doubles to show where
    the two part ways.
    Counts and indices ([cardCount], [cardIndex], [z]) are integers ([Z]).

    Not embedded: the layer renderers and the DOM construction of
    [buildSection] and [buildAllSections]; the layout, random and
    trigonometric helpers of positioning-helpers.js. *)

From Stdlib Require Import ZArith QArith Qround Qabs Qminmax Lqa Lia.
From Stdlib Require Import List Bool String Ascii.
From Stdlib Require Import Decimal DecimalString DecimalNat DecimalZ.
From Stdlib Require Import PrimFloat SpecFloat FloatOps.
Import ListNotations.

(* Decimal literals such as 0.7 denote the nearest double in [Binary64]. *)
Set Warnings "-inexact-float".

Local Open Scope Z_scope.
Local Open Scope Q_scope.

(** ** JavaScript helpers shared by every module *)

(** [a < b] on numbers, as a boolean. *)
Definition Qltb (a b : Q) : bool := negb (Qle_bool b a).

(** [Math.round]: nearest integer, ties towards +infinity. *)
Definition Math_round (x : Q) : Z := Qfloor (x + (1 # 2)).

(** [Math.ceil]. *)
Definition Math_ceil (x : Q) : Z := Qceiling x.

(** [for (let i = start; i < n; i++) body], threading the loop state. *)
Fixpoint forLoop {S : Type} (fuel : nat) (i n : Z) (body : Z -> S -> S) (s : S) : S :=
  match fuel with
  | O => s
  | Datatypes.S fuel' =>
      if (i <? n)%Z then forLoop fuel' (i + 1)%Z n body (body i s) else s
  end.

(** The loop from 0: [Z.to_nat n] iterations are exactly what the guard allows. *)
Definition forRange {S : Type} (n : Z) (body : Z -> S -> S) (s : S) : S :=
  forLoop (Z.to_nat n) 0%Z n body s.

(** [x || dflt] / destructuring default for an optional field. *)
Definition withDefault {A : Type} (dflt : A) (o : option A) : A :=
  match o with Some a => a | None => dflt end.

(** ** scroll-timing-config.js *)

Module ScrollTiming.

(** SCROLL_TIMING, all in viewport-height units. *)
Definition PANEL_READING_HOLD : Q := 1.2.
Definition CARD_READING_HOLD : Q := 0.2.
Definition CARD_FADE_DISTANCE : Q := 0.08.
Definition PANEL_FADE_IN : Q := 0.3.
Definition GREY_SPACE_BETWEEN : Q := 0.75.
Definition LAST_PANEL_EXTRA_HOLD : Q := 0.2.

(** The options object of [calculateSectionHeight]; every field may be
    left out and then takes its destructuring default. *)
Record HeightOptions := mkHeightOptions {
  cardCount : option Z;
  isLastSection : option bool;
  fadeZone : option Q
}.

Definition calculateSectionHeight (options : HeightOptions) : Z :=
  let cardCount := withDefault 0%Z (cardCount options) in
  let isLastSection := withDefault false (isLastSection options) in
  let fadeZone := withDefault 0.7 (fadeZone options) in
  let holdTime := PANEL_READING_HOLD in
  let holdTime :=
    if (0 <? cardCount)%Z then
      forRange cardCount
        (fun _ holdTime =>
           let holdTime := holdTime + CARD_FADE_DISTANCE in
           holdTime + CARD_READING_HOLD)
        holdTime
    else holdTime in
  let holdTime :=
    if isLastSection then holdTime + LAST_PANEL_EXTRA_HOLD else holdTime in
  let totalHeight := (2 * fadeZone) + GREY_SPACE_BETWEEN + holdTime in
  Math_ceil (totalHeight * 100).

Record CardThreshold := mkCardThreshold {
  threshold : Z;
  fadeDistance : Z
}.

(** The pixel threshold before [Math.round]. *)
Definition pixelThreshold (windowHeight : Q) (cardIndex : Z) : Q :=
  let pixelThreshold := windowHeight * PANEL_READING_HOLD in
  if (0 <? cardIndex)%Z then
    pixelThreshold
    + windowHeight * ((CARD_FADE_DISTANCE + CARD_READING_HOLD) * inject_Z cardIndex)
  else pixelThreshold.

Definition calculateCardThreshold (windowHeight : Q) (cardIndex : Z) : CardThreshold :=
  {| threshold := Math_round (pixelThreshold windowHeight cardIndex);
     fadeDistance := Math_round (windowHeight * CARD_FADE_DISTANCE) |}.





End ScrollTiming.

(** ** scroll-timing-config.js on IEEE-754 doubles

    [calculateSectionHeight] once more, on the binary64 numbers the
    interpreter computes with (round to nearest, ties to even). *)

Module Binary64.

(** [Math.ceil] of a double, as an integer; [None] for NaN and the
    infinities. *)
Definition Math_ceil64 (x : float) : option Z :=
  match Prim2SF x with
  | S754_zero _ => Some 0%Z
  | S754_finite s m e =>
      let n := Z.pos m in
      if (0 <=? e)%Z then Some ((if s then - n else n) * 2 ^ e)%Z
      else
        let d := (2 ^ (- e))%Z in
        Some (if s then (- (n / d))%Z else ((n + d - 1) / d)%Z)
  | S754_infinity _ => None
  | S754_nan => None
  end.

Definition calculateSectionHeight64 (cardCount : Z) (isLastSection : bool) (fadeZone : float) : option Z :=
  let holdTime := 1.2%float in
  let holdTime :=
    if (0 <? cardCount)%Z then
      forRange cardCount
        (fun _ holdTime =>
           let holdTime := (holdTime + 0.08)%float in
           (holdTime + 0.2)%float)
        holdTime
    else holdTime in
  let holdTime :=
    if isLastSection then (holdTime + 0.2)%float else holdTime in
  let totalHeight := ((2 * fadeZone) + 0.75 + holdTime)%float in
  Math_ceil64 (totalHeight * 100)%float.

End Binary64.

(** ** JavaScript strings, arrays and template literals *)

Local Open Scope string_scope.

(** Truthiness of a string: only the empty string is falsy. *)
Definition truthy (s : string) : bool := negb (s =? "").

(** Truthiness of an optional string field: [undefined] and the empty
    string are falsy. *)
Definition truthyStr (o : option string) : bool :=
  match o with
  | Some s => truthy s
  | None => false
  end.

(** [`${n}`] for an array index. *)
Definition natToString (n : nat) : string :=
  NilEmpty.string_of_uint (Nat.to_uint n).

(** [`${z}`] for an integer. *)
Definition zToString (z : Z) : string :=
  NilZero.string_of_int (Z.to_int z).

(** [`${v}`] for an optional string field. *)
Definition strToString (o : option string) : string :=
  withDefault "undefined" o.

Definition dquote : string := String (ascii_of_nat 34) EmptyString.

(** [arr.push(x)]. *)
Definition push {A : Type} (x : A) (arr : list A) : list A := (arr ++ [x])%list.

(** [arr.forEach((x, idx) => ...)], the callback acting on a state. *)
Fixpoint forEachFrom {A S : Type} (idx : nat) (f : A -> nat -> S -> S) (arr : list A) (s : S) : S :=
  match arr with
  | [] => s
  | x :: arr' => forEachFrom (Datatypes.S idx) f arr' (f x idx s)
  end.

Definition forEach {A S : Type} (f : A -> nat -> S -> S) (arr : list A) (s : S) : S :=
  forEachFrom 0 f arr s.

(** ** Vocabulary of the properties on arrays and texts (not part of the source) *)

(** The messages of every element, in order, each computed from the
    element and its index. *)
Fixpoint imapFrom {A B : Type} (idx : nat) (g : A -> nat -> B) (arr : list A) : list B :=
  match arr with
  | [] => []
  | x :: arr' => g x idx :: imapFrom (S idx) g arr'
  end.

Definition count {A : Type} (p : A -> bool) (l : list A) : nat :=
  List.length (filter p l).

(** ** section-schema.js: the scene description *)

Module Schema.

Record HeroConfig := mkHero {
  text : option string;
  style : option string;
  fontSize : option string
}.

Record Position := mkPosition {
  pos_top : option string;
  pos_right : option string;
  pos_bottom : option string;
  pos_left : option string
}.

Record Size := mkSize {
  size_width : option string;
  size_height : option string
}.

(** One record for the three layer variants; [type] tells them apart and
    the fields a variant does not declare are absent. *)
Record Layer := mkLayer {
  type : option string;
  src : option string;
  renderer : option string;
  z : option Z;
  position : option Position;
  size : option Size
}.

Record ScrollConfig := mkScroll {
  height : option string;
  fadeZone : option Q
}.

(** [layers] is [None] when the field is absent ([undefined] or [null]);
    the declared type [Layer[]] admits nothing but an array otherwise. *)
Record Section := mkSection {
  id : option string;
  hero : option HeroConfig;
  layers : option (list Layer);
  scroll : option ScrollConfig
}.

(** [sections] is [None] when the field is missing or is not an array. *)
Record SectionSchema := mkSchema {
  sections : option (list Section)
}.

Record ValidationResult := mkResult {
  valid : bool;
  errors : list string
}.

Definition layerTypes : list string := ["background"; "image"; "custom"].

(** [['background', 'image', 'custom'].includes(layer.type)]. *)
Definition includesType (t : option string) : bool :=
  match t with
  | Some s => existsb (String.eqb s) layerTypes
  | None => false
  end.

(** [layer.type === name]. *)
Definition typeIs (name : string) (t : option string) : bool :=
  match t with
  | Some s => s =? name
  | None => false
  end.

(** [layer.z > 50]; an absent [z] compares as NaN. *)
Definition zExceeds (z : option Z) : bool :=
  match z with
  | Some v => (50 <? v)%Z
  | None => false
  end.

Definition zFieldToString (z : option Z) : string :=
  match z with
  | Some v => zToString v
  | None => "undefined"
  end.

Definition sectionPrefix (idx : nat) : string := "Section " ++ natToString idx.

Definition depthErrorHead (pre : string) (layerIdx : nat) : string :=
  pre ++ ", layer " ++ natToString layerIdx ++ ": z-index ".

(** The callback of [section.layers?.forEach]. *)
Definition validateLayer (pre : string) (layer : Layer) (layerIdx : nat) (errors : list string) : list string :=
  let errors :=
    if zExceeds (z layer) then
      push (depthErrorHead pre layerIdx ++ zFieldToString (z layer)
            ++ " exceeds max of 50 (hero zone protection)") errors
    else errors in
  let errors :=
    if negb (includesType (type layer)) then
      push (pre ++ ", layer " ++ natToString layerIdx ++ ": invalid layer type "
            ++ dquote ++ strToString (type layer) ++ dquote) errors
    else errors in
  let errors :=
    if typeIs "image" (type layer) && negb (truthyStr (src layer)) then
      push (pre ++ ", layer " ++ natToString layerIdx ++ ": image layer missing src") errors
    else errors in
  let errors :=
    if typeIs "custom" (type layer) && negb (truthyStr (renderer layer)) then
      push (pre ++ ", layer " ++ natToString layerIdx ++ ": custom layer missing renderer name") errors
    else errors in
  errors.

(** The callback of [schema.sections.forEach]. *)
Definition validateSection (section : Section) (idx : nat) (errors : list string) : list string :=
  let pre := sectionPrefix idx in
  let errors :=
    if negb (truthyStr (id section)) then push (pre ++ ": missing id") errors else errors in
  let errors :=
    match hero section with
    | None => push (pre ++ ": missing hero config") errors
    | Some _ => errors
    end in
  let errors :=
    match hero section with
    | Some h => if truthyStr (text h) then errors else push (pre ++ ": hero missing text") errors
    | None => push (pre ++ ": hero missing text") errors
    end in
  let errors :=
    match layers section with
    | None => push (pre ++ ": missing or invalid layers array") errors
    | Some _ => errors
    end in
  match layers section with
  | Some ls => forEach (validateLayer pre) ls errors
  | None => errors
  end.

Definition validateSchema (schema : SectionSchema) : ValidationResult :=
  let errors := [] in
  match sections schema with
  | None =>
      let errors := push ("Schema must have a " ++ dquote ++ "sections" ++ dquote ++ " array") errors in
      {| valid := false; errors := errors |}
  | Some secs =>
      let errors := forEach validateSection secs errors in
      {| valid := (List.length errors =? 0)%nat; errors := errors |}
  end.

(** *** Vocabulary of the properties below (not part of the source) *)

(** A depth-ceiling error about layer [j] of section [i]. *)
Definition isDepthErrorFor (i j : nat) (msg : string) : bool :=
  String.prefix (depthErrorHead (sectionPrefix i) j) msg.

(** An error of any kind about layer [j] of section [i]. *)
Definition isLayerErrorFor (i j : nat) (msg : string) : bool :=
  String.prefix (sectionPrefix i ++ ", layer " ++ natToString j ++ ": ") msg.

(** The layer has a known type and the field its type requires: no
    defect other than, possibly, its depth. *)
Definition otherwiseValid (layer : Layer) : bool :=
  includesType (type layer)
  && negb (typeIs "image" (type layer) && negb (truthyStr (src layer)))
  && negb (typeIs "custom" (type layer) && negb (truthyStr (renderer layer))).

(** The layer passes every check of [validateLayer]. *)
Definition wellFormedLayer (layer : Layer) : bool :=
  negb (zExceeds (z layer)) && otherwiseValid layer.

(** The section passes every check of [validateSection]: an id, a hero
    with a text, a layers array of well-formed layers. *)
Definition wellFormedSection (section : Section) : bool :=
  truthyStr (id section)
  && match hero section with
     | Some h => truthyStr (text h)
     | None => false
     end
  && match layers section with
     | Some ls => forallb wellFormedLayer ls
     | None => false
     end.


(** What [validateLayer] pushes for one layer. *)
Definition layerErrors (pre : string) (layer : Layer) (layerIdx : nat) : list string :=
  let depth :=
    depthErrorHead pre layerIdx ++ zFieldToString (z layer)
    ++ " exceeds max of 50 (hero zone protection)" in
  let invalid :=
    pre ++ ", layer " ++ natToString layerIdx ++ ": invalid layer type "
    ++ dquote ++ strToString (type layer) ++ dquote in
  let noSrc := pre ++ ", layer " ++ natToString layerIdx ++ ": image layer missing src" in
  let noRenderer :=
    pre ++ ", layer " ++ natToString layerIdx ++ ": custom layer missing renderer name" in
  ((if zExceeds (z layer) then [depth] else [])
   ++ (if negb (includesType (type layer)) then [invalid] else [])
   ++ (if typeIs "image" (type layer) && negb (truthyStr (src layer)) then [noSrc] else [])
   ++ (if typeIs "custom" (type layer) && negb (truthyStr (renderer layer))
       then [noRenderer] else []))%list.

(** What [validateSection] pushes before it visits the layers. *)
Definition sectionHeaderErrors (section : Section) (idx : nat) : list string :=
  let pre := sectionPrefix idx in
  let noId := pre ++ ": missing id" in
  let noHero := pre ++ ": missing hero config" in
  let noText := pre ++ ": hero missing text" in
  let noLayers := pre ++ ": missing or invalid layers array" in
  ((if negb (truthyStr (id section)) then [noId] else [])
   ++ (match hero section with
       | None => [noHero]
       | Some _ => []
       end)
   ++ (match hero section with
       | Some h => if truthyStr (text h) then [] else [noText]
       | None => [noText]
       end)
   ++ (match layers section with
       | None => [noLayers]
       | Some _ => []
       end))%list.

Definition sectionErrors (section : Section) (idx : nat) : list string :=
  (sectionHeaderErrors section idx
   ++ match layers section with
      | Some ls => List.concat (imapFrom 0 (layerErrors (sectionPrefix idx)) ls)
      | None => []
      end)%list.

End Schema.

(** ** Numbers that may be NaN, and the string functions of the validator *)

Inductive JsNum : Type :=
| NaN
| Num (q : Q).

Definition jsLift2 (f : Q -> Q -> Q) (a b : JsNum) : JsNum :=
  match a, b with
  | Num x, Num y => Num (f x y)
  | _, _ => NaN
  end.

Definition jsAdd : JsNum -> JsNum -> JsNum := jsLift2 Qplus.
Definition jsSub : JsNum -> JsNum -> JsNum := jsLift2 Qminus.
Definition jsMul : JsNum -> JsNum -> JsNum := jsLift2 Qmult.

(** Division; the source only divides by the non-zero literals 100 and 2. *)
Definition jsDiv : JsNum -> JsNum -> JsNum := jsLift2 Qdiv.

(** [a < b] and [a > b]: false as soon as one side is NaN. *)
Definition jsLt (a b : JsNum) : bool :=
  match a, b with
  | Num x, Num y => Qltb x y
  | _, _ => false
  end.

Definition jsGt (a b : JsNum) : bool := jsLt b a.

(** [`${Math.round(x)}`]. *)
Definition roundToString (x : JsNum) : string :=
  match x with
  | NaN => "NaN"
  | Num q => zToString (Math_round q)
  end.

Fixpoint dropChars (n : nat) (s : string) : string :=
  match n, s with
  | Datatypes.S n', String _ s' => dropChars n' s'
  | _, _ => s
  end.

(** [s.endsWith(suffix)]. *)
Definition endsWith (s suffix : string) : bool :=
  let n := String.length s in
  let m := String.length suffix in
  (m <=? n)%nat && (dropChars (n - m) s =? suffix).

(** [s.includes(sub)]. *)
Fixpoint includes (s sub : string) : bool :=
  String.prefix sub s
  || match s with
     | EmptyString => false
     | String _ s' => includes s' sub
     end.

(** [(s.match(/pat/g) || []).length] for a literal pattern: matches are
    taken left to right and do not overlap; [skip] characters of the
    last match are still to be passed. *)
Fixpoint countMatchesFrom (pat : string) (skip : nat) (s : string) : nat :=
  match s with
  | EmptyString => 0
  | String _ s' =>
      match skip with
      | Datatypes.S k => countMatchesFrom pat k s'
      | O =>
          if String.prefix pat s
          then Datatypes.S (countMatchesFrom pat (String.length pat - 1) s')
          else countMatchesFrom pat 0 s'
      end
  end.

Definition countMatches (pat s : string) : nat := countMatchesFrom pat 0 s.

Definition isDigit (c : ascii) : bool :=
  let n := nat_of_ascii c in (48 <=? n)%nat && (n <=? 57)%nat.

Definition digitVal (c : ascii) : Z := Z.of_nat (nat_of_ascii c - 48).

(** White space as [parseFloat] and the regular-expression class [\s]
    see it, within the ASCII range. *)
Definition isSpace (c : ascii) : bool :=
  let n := nat_of_ascii c in
  (n =? 32)%nat || ((9 <=? n)%nat && (n <=? 13)%nat).

Fixpoint skipSpaces (s : string) : string :=
  match s with
  | String c s' => if isSpace c then skipSpaces s' else s
  | EmptyString => s
  end.

(** A maximal run of decimal digits: its value, its length, the rest. *)
Fixpoint readDigits (s : string) (acc : Z) (n : nat) : Z * nat * string :=
  match s with
  | String c s' =>
      if isDigit c then readDigits s' (acc * 10 + digitVal c)%Z (Datatypes.S n)
      else (acc, n, s)
  | EmptyString => (acc, n, s)
  end.

(** The exponent part [e[+-]digits] when there is one, else 0. *)
Definition readExponent (s : string) : Z :=
  match s with
  | String c s' =>
      if (nat_of_ascii c =? 101)%nat || (nat_of_ascii c =? 69)%nat then
        let '(neg, s'') :=
          match s' with
          | String d r =>
              if (nat_of_ascii d =? 45)%nat then (true, r)
              else if (nat_of_ascii d =? 43)%nat then (false, r)
              else (false, s')
          | EmptyString => (false, s')
          end in
        let '(e, n, _) := readDigits s'' 0%Z 0%nat in
        if (n =? 0)%nat then 0%Z else if neg then (- e)%Z else e
      else 0%Z
  | EmptyString => 0%Z
  end.

(** [parseFloat]: leading white space, an optional sign, the longest
    decimal literal (digits, optional fraction, optional exponent); NaN
    when no digit is found.  The literal [Infinity] is not a value of the
    number model. *)
Definition parseFloat (s : string) : JsNum :=
  let s := skipSpaces s in
  let '(neg, s) :=
    match s with
    | String c r =>
        if (nat_of_ascii c =? 45)%nat then (true, r)
        else if (nat_of_ascii c =? 43)%nat then (false, r)
        else (false, s)
    | EmptyString => (false, s)
    end in
  let '(ip, ni, s) := readDigits s 0%Z 0%nat in
  let '(fp, nf, s) :=
    match s with
    | String c r =>
        if (nat_of_ascii c =? 46)%nat then readDigits r 0%Z 0%nat else (0%Z, 0%nat, s)
    | EmptyString => (0%Z, 0%nat, s)
    end in
  if (ni + nf =? 0)%nat then NaN
  else
    let m := (inject_Z ip + inject_Z fp / inject_Z (10 ^ Z.of_nat nf))%Q in
    let v := (m * Qpower 10 (readExponent s))%Q in
    Num (if neg then (- v)%Q else v).

(** The text before the first comma and the text after it. *)
Fixpoint splitComma (s : string) : option (string * string) :=
  match s with
  | EmptyString => None
  | String c s' =>
      if (nat_of_ascii c =? 44)%nat then Some (EmptyString, s')
      else
        match splitComma s' with
        | Some (a, r) => Some (String c a, r)
        | None => None
        end
  end.

Fixpoint lastChar (s : string) : string :=
  match s with
  | EmptyString => EmptyString
  | String c EmptyString => s
  | String _ s' => lastChar s'
  end.

(** [\s*([^,]+)] against the whole of [t], the text between two commas:
    the group is [t] without its leading white space, or the last
    character of [t] when [t] is white space only. *)
Definition clampGroup (t : string) : option string :=
  match t with
  | EmptyString => None
  | _ =>
      match skipSpaces t with
      | EmptyString => Some (lastChar t)
      | t' => Some t'
      end
  end.

(** [/clamp\([^,]+,\s*([^,]+),/] anchored at the start of [s]. *)
Definition matchClampAt (s : string) : option string :=
  if String.prefix "clamp(" s then
    match splitComma (dropChars 6 s) with
    | Some (EmptyString, _) => None
    | Some (_, r) =>
        match splitComma r with
        | Some (t, _) => clampGroup t
        | None => None
        end
    | None => None
    end
  else None.

(** [s.match(/clamp\([^,]+,\s*([^,]+),/)]: capture group 1 of the
    leftmost match. *)
Fixpoint matchClamp (s : string) : option string :=
  match matchClampAt s with
  | Some g => Some g
  | None =>
      match s with
      | EmptyString => None
      | String _ s' => matchClamp s'
      end
  end.

(** Two numbers are the same value: both NaN, or equal rationals
    (vocabulary of the properties). *)
Definition jsEq (a b : JsNum) : Prop :=
  match a, b with
  | NaN, NaN => True
  | Num x, Num y => x == y
  | _, _ => False
  end.

(** An answer of [parsePosition] that is the number [q] (vocabulary of
    the properties). *)
Definition parsesTo (o : option JsNum) (q : Q) : Prop :=
  match o with
  | Some (Num x) => x == q
  | _ => False
  end.

(** A text at which a decimal literal stops: it does not go on with a
    digit, a fraction or an exponent (vocabulary of the properties). *)
Definition endsNumber (rest : string) : bool :=
  match rest with
  | EmptyString => true
  | String c _ =>
      negb (isDigit c) && negb (nat_of_ascii c =? 46)%nat
      && negb (nat_of_ascii c =? 101)%nat && negb (nat_of_ascii c =? 69)%nat
  end.

(** A text made of decimal digits only (vocabulary of the properties). *)
Fixpoint allDigits (s : string) : bool :=
  match s with
  | EmptyString => true
  | String c s' => isDigit c && allDigits s'
  end.

(** ** section-validator.js: hero zone overlap validation *)

Module Validator.
Import Schema.

(** [window.innerWidth] and [window.innerHeight]. *)
Record Window := mkWindow {
  innerWidth : Q;
  innerHeight : Q
}.

Record Bounds := mkBounds {
  top : JsNum;
  right : JsNum;
  bottom : JsNum;
  left : JsNum;
  width : JsNum;
  height : JsNum
}.

(** The [bounds] object of [calculateImageBounds] while it is filled in:
    an edge is [None] until it is assigned. *)
Record PartialBounds := mkPartial {
  p_width : JsNum;
  p_height : JsNum;
  p_top : option JsNum;
  p_bottom : option JsNum;
  p_left : option JsNum;
  p_right : option JsNum
}.

(** Reading a property that may be [undefined] where a number is used. *)
Definition toNumber (o : option JsNum) : JsNum := withDefault NaN o.

(** [calculateHeroBounds]; [None] is the TypeError of [heroConfig.text.match]
    on a hero without text. *)
Definition calculateHeroBounds (w : Window) (heroConfig : HeroConfig) : option Bounds :=
  let viewportWidth := innerWidth w in
  let viewportHeight := innerHeight w in
  let maxWidth := 1000%Q in
  let padding := 40%Q in
  let fontSize :=
    if truthyStr (fontSize heroConfig) then strToString (fontSize heroConfig)
    else "clamp(2.5rem, 6vw, 5rem)" in
  match text heroConfig with
  | None => None
  | Some txt =>
      let lineCount := (countMatches "<br>" txt + 1)%nat in
      let estimatedFontSize := Num 80 in
      let estimatedFontSize :=
        if includes fontSize "clamp" then
          match matchClamp fontSize with
          | Some g =>
              let vwValue := parseFloat g in
              jsDiv (jsMul (Num viewportWidth) vwValue) (Num 100)
          | None => estimatedFontSize
          end
        else estimatedFontSize in
      let lineHeight := jsMul estimatedFontSize (Num 1.2) in
      let estimatedHeight := jsMul (Num (inject_Z (Z.of_nat lineCount))) lineHeight in
      let containerWidth := Num (Qmin (maxWidth + (padding * 2)) viewportWidth) in
      let containerHeight := jsAdd estimatedHeight (Num (padding * 2)) in
      Some {| top := jsSub (Num (viewportHeight / 2)) (jsDiv containerHeight (Num 2));
              left := jsSub (Num (viewportWidth / 2)) (jsDiv containerWidth (Num 2));
              bottom := jsAdd (Num (viewportHeight / 2)) (jsDiv containerHeight (Num 2));
              right := jsAdd (Num (viewportWidth / 2)) (jsDiv containerWidth (Num 2));
              width := containerWidth;
              height := containerHeight |}
  end.

(** [parsePosition]; [None] is the [null] it returns for a falsy value. *)
Definition parsePosition (w : Window) (value : option string) (containerSize : Q) : option JsNum :=
  if negb (truthyStr value) then None
  else
    let value := strToString value in
    if endsWith value "%" then
      Some (jsMul (jsDiv (parseFloat value) (Num 100)) (Num containerSize))
    else if endsWith value "px" then
      Some (parseFloat value)
    else if endsWith value "vh" then
      Some (jsMul (jsDiv (parseFloat value) (Num 100)) (Num (innerHeight w)))
    else if endsWith value "vw" then
      Some (jsMul (jsDiv (parseFloat value) (Num 100)) (Num (innerWidth w)))
    else Some (parseFloat value).

(** [layer.position.edge ? parsePosition(layer.position.edge, size) : null]. *)
Definition edgeOf (w : Window) (value : option string) (containerSize : Q) : option JsNum :=
  if truthyStr value then parsePosition w value containerSize else None.

(** [layer.size?.dim ? parsePosition(layer.size.dim, size) : 100]; the
    [null] of [parsePosition] cannot arise on a truthy value and would
    act as 0 in the additions below. *)
Definition dimOf (w : Window) (value : option string) (containerSize : Q) : JsNum :=
  if truthyStr value then withDefault (Num 0) (parsePosition w value containerSize)
  else Num 100.

(** [calculateImageBounds], called with [layer.position] present. *)
Definition calculateImageBounds (w : Window) (position : Position) (size : option Size) : option Bounds :=
  let viewportWidth := innerWidth w in
  let viewportHeight := innerHeight w in
  let top := edgeOf w (pos_top position) viewportHeight in
  let left := edgeOf w (pos_left position) viewportWidth in
  let right := edgeOf w (pos_right position) viewportWidth in
  let bottom := edgeOf w (pos_bottom position) viewportHeight in
  let width :=
    dimOf w (match size with Some sz => size_width sz | None => None end) viewportWidth in
  let height :=
    dimOf w (match size with Some sz => size_height sz | None => None end) viewportHeight in
  let bounds :=
    {| p_width := width; p_height := height;
       p_top := None; p_bottom := None; p_left := None; p_right := None |} in
  let bounds :=
    match top with
    | Some top =>
        {| p_width := p_width bounds; p_height := p_height bounds;
           p_top := Some top; p_bottom := Some (jsAdd top height);
           p_left := p_left bounds; p_right := p_right bounds |}
    | None => bounds
    end in
  let bounds :=
    match bottom with
    | Some bottom =>
        let newBottom := jsSub (Num viewportHeight) bottom in
        {| p_width := p_width bounds; p_height := p_height bounds;
           p_top := Some (jsSub newBottom height); p_bottom := Some newBottom;
           p_left := p_left bounds; p_right := p_right bounds |}
    | None => bounds
    end in
  let bounds :=
    match left with
    | Some left =>
        {| p_width := p_width bounds; p_height := p_height bounds;
           p_top := p_top bounds; p_bottom := p_bottom bounds;
           p_left := Some left; p_right := Some (jsAdd left width) |}
    | None => bounds
    end in
  let bounds :=
    match right with
    | Some right =>
        let newRight := jsSub (Num viewportWidth) right in
        {| p_width := p_width bounds; p_height := p_height bounds;
           p_top := p_top bounds; p_bottom := p_bottom bounds;
           p_left := Some (jsSub newRight width); p_right := Some newRight |}
    | None => bounds
    end in
  match p_top bounds, p_left bounds with
  | Some t, Some l =>
      Some {| top := t; right := toNumber (p_right bounds);
              bottom := toNumber (p_bottom bounds); left := l;
              width := p_width bounds; height := p_height bounds |}
  | _, _ => None
  end.

Definition boxesOverlap (box1 box2 : Bounds) : bool :=
  negb (jsLt (right box1) (left box2)
        || jsGt (left box1) (right box2)
        || jsLt (bottom box1) (top box2)
        || jsGt (top box1) (bottom box2)).

Record OverlapResult := mkOverlapResult {
  valid : bool;
  warnings : list string
}.

Definition overlapWarningHead (idx : nat) : string :=
  "Layer " ++ natToString idx ++ " (image: ".

Definition overlapWarning (idx : nat) (layer : Layer) (heroBounds imageBounds : Bounds) : string :=
  overlapWarningHead idx ++ strToString (src layer) ++ ") may overlap hero text. "
  ++ "Hero bounds: {top: " ++ roundToString (top heroBounds)
  ++ ", left: " ++ roundToString (left heroBounds)
  ++ ", bottom: " ++ roundToString (bottom heroBounds)
  ++ ", right: " ++ roundToString (right heroBounds) ++ "}. "
  ++ "Image bounds: {top: " ++ roundToString (top imageBounds)
  ++ ", left: " ++ roundToString (left imageBounds)
  ++ ", bottom: " ++ roundToString (bottom imageBounds)
  ++ ", right: " ++ roundToString (right imageBounds) ++ "}".

Definition customWarning (idx : nat) (layer : Layer) : string :=
  "Layer " ++ natToString idx ++ " (custom: " ++ strToString (renderer layer)
  ++ ") cannot be validated automatically. "
  ++ "Ensure custom renderer respects hero zone bounds.".

(** The callback of [section.layers.forEach] in [validateHeroOverlap]. *)
Definition checkLayer (w : Window) (heroBounds : Bounds) (layer : Layer) (idx : nat) (warnings : list string) : list string :=
  let warnings :=
    match typeIs "image" (type layer), position layer with
    | true, Some pos =>
        match calculateImageBounds w pos (size layer) with
        | Some imageBounds =>
            if boxesOverlap heroBounds imageBounds
            then push (overlapWarning idx layer heroBounds imageBounds) warnings
            else warnings
        | None => warnings
        end
    | _, _ => warnings
    end in
  let warnings :=
    if typeIs "custom" (type layer) then push (customWarning idx layer) warnings
    else warnings in
  warnings.

(** [validateHeroOverlap]; [None] is a TypeError: a section without
    hero, hero text or layers array. *)
Definition validateHeroOverlap (w : Window) (section : Section) : option OverlapResult :=
  let warnings := [] in
  match hero section with
  | None => None
  | Some h =>
      match calculateHeroBounds w h with
      | None => None
      | Some heroBounds =>
          match layers section with
          | None => None
          | Some ls =>
              let warnings := forEach (checkLayer w heroBounds) ls warnings in
              Some {| valid := (List.length warnings =? 0)%nat; warnings := warnings |}
          end
      end
  end.

(** The callback of [result.warnings.forEach] in [validateAllSections]. *)
Definition prefixWarning (idx : nat) (section : Section) (warning : string) (allWarnings : list string) : list string :=
  push ("Section " ++ natToString idx ++ " (" ++ strToString (id section) ++ "): " ++ warning)
       allWarnings.

(** The callback of [schema.sections.forEach] in [validateAllSections];
    the state is [None] once [validateHeroOverlap] has thrown, and stays
    so: the exception ends the loop. *)
Definition collectSection (w : Window) (section : Section) (idx : nat) (state : option (list string)) : option (list string) :=
  match state with
  | None => None
  | Some allWarnings =>
      match validateHeroOverlap w section with
      | None => None
      | Some result =>
          if negb (valid result) then
            Some (forEach (fun warning _ all => prefixWarning idx section warning all)
                          (warnings result) allWarnings)
          else Some allWarnings
      end
  end.

(** [validateAllSections]; [None] is a TypeError: no [sections] array, or
    a section that [validateHeroOverlap] cannot read. *)
Definition validateAllSections (w : Window) (schema : SectionSchema) : option OverlapResult :=
  match sections schema with
  | None => None
  | Some secs =>
      match forEach (collectSection w) secs (Some []) with
      | None => None
      | Some allWarnings =>
          Some {| valid := (List.length allWarnings =? 0)%nat; warnings := allWarnings |}
      end
  end.

(** *** Vocabulary of the properties below (not part of the source) *)

(** [a < b] as a proposition: it holds of two numbers in that order and
    of nothing else. *)
Definition jsLess (a b : JsNum) : Prop :=
  match a, b with
  | Num x, Num y => x < y
  | _, _ => False
  end.

Definition jsGreater (a b : JsNum) : Prop := jsLess b a.

(** Both axes of a position are declared: a vertical edge (top or
    bottom) and a horizontal edge (left or right). *)
Definition resolvable (pos : Position) : bool :=
  (truthyStr (pos_top pos) || truthyStr (pos_bottom pos))
  && (truthyStr (pos_left pos) || truthyStr (pos_right pos)).

(** A warning about the image layer at [idx]. *)
Definition isOverlapWarningFor (idx : nat) (msg : string) : bool :=
  String.prefix (overlapWarningHead idx) msg.

(** A warning of any kind about the layer at [idx]. *)
Definition mentionsLayer (idx : nat) (msg : string) : bool :=
  String.prefix ("Layer " ++ natToString idx ++ " (") msg.

(** The layer is an image with a position whose derived box intersects
    the hero box. *)
Definition overlapping (w : Window) (heroBounds : Bounds) (layer : Layer) : bool :=
  typeIs "image" (type layer)
  && match position layer with
     | Some pos =>
         match calculateImageBounds w pos (size layer) with
         | Some imageBounds => boxesOverlap heroBounds imageBounds
         | None => false
         end
     | None => false
     end.

(** The layer is handed to a custom renderer. *)
Definition isCustom (layer : Layer) : bool := typeIs "custom" (type layer).

(** What [collectSection] pushes for one section: its warnings, each
    prefixed with the section. *)
Definition sectionWarnings (w : Window) (section : Section) (idx : nat) : list string :=
  match validateHeroOverlap w section with
  | Some result =>
      map (fun warning =>
             "Section " ++ natToString idx ++ " (" ++ strToString (id section) ++ "): " ++ warning)
          (warnings result)
  | None => []
  end.

(** The number of lines of a hero text: one more than its [<br>] tags. *)
Definition lineCountOf (txt : string) : Q :=
  inject_Z (Z.of_nat (countMatches "<br>" txt + 1)).

(** What [checkLayer] pushes for one layer. *)
Definition layerWarnings (w : Window) (heroBounds : Bounds) (layer : Layer) (idx : nat) : list string :=
  (match typeIs "image" (type layer), position layer with
   | true, Some pos =>
       match calculateImageBounds w pos (size layer) with
       | Some imageBounds =>
           if boxesOverlap heroBounds imageBounds
           then [overlapWarning idx layer heroBounds imageBounds]
           else []
       | None => []
       end
   | _, _ => []
   end
   ++ (if typeIs "custom" (type layer) then [customWarning idx layer] else []))%list.

End Validator.

(** ** section-builder.js: section construction and the scroll controller *)

Module Builder.
Import Schema.

(** The section container that [buildSection] returns, as far as the
    scroll controller can observe it.  The layer elements and the hero
    content container are built from [section.layers] and [section.hero]
    alone; of [section.scroll] only [height] is read. *)
Record SectionContainer := mkContainer {
  el_id : string;
  className : string;
  dataset_sectionId : string;
  css_height : string
}.

Definition buildSection (section : Section) : SectionContainer :=
  {| el_id := strToString (id section);
     className := "fullscreen-section";
     dataset_sectionId := strToString (id section);
     css_height :=
       let h := match scroll section with
                | Some sc => height sc
                | None => None
                end in
       if truthyStr h then strToString h else "250vh" |}.

(** [getBoundingClientRect()] of a section, relative to the viewport. *)
Record Rect := mkRect {
  rect_top : Q;
  rect_bottom : Q;
  rect_height : Q
}.

(** What the controller reads and writes of a DOM element;
    [animationTriggered] is [dataset.animationTriggered], the empty string
    while it is unset. *)
Record Element := mkElement {
  classList : list string;
  animationTriggered : string;
  style_display : string;
  style_opacity : option Q
}.

(** A pending [setTimeout]: its delay in milliseconds and the visual
    (by position among the section's visuals) whose callback it holds. *)
Record Timeout := mkTimeout {
  delay : Z;
  target : nat
}.

(** One section as a scroll tick finds it: the container, its current
    rectangle and the elements the queries return for it. *)
Record SectionView := mkView {
  container : SectionContainer;
  rect : Rect;
  sectionBg : option Element;
  sectionContent : option Element;
  sectionImages : list Element;
  sectionVisuals : list Element
}.

Definition contains (c : string) (cl : list string) : bool :=
  existsb (String.eqb c) cl.

Definition classAdd (c : string) (cl : list string) : list string :=
  if contains c cl then cl else (cl ++ [c])%list.

Definition classRemove (c : string) (cl : list string) : list string :=
  filter (fun x => negb (x =? c)) cl.

Definition setDisplay (d : string) (el : Element) : Element :=
  {| classList := classList el;
     animationTriggered := animationTriggered el;
     style_display := d;
     style_opacity := style_opacity el |}.

Definition setOpacity (o : Q) (el : Element) : Element :=
  {| classList := classList el;
     animationTriggered := animationTriggered el;
     style_display := style_display el;
     style_opacity := Some o |}.

(** [Math.max(0, Math.min(1, opacity))]. *)
Definition clampOpacity (opacity : Q) : Q := Qmax 0 (Qmin 1 opacity).

(** [rect.bottom < 0 || rect.top > windowHeight]. *)
Definition outOfView (windowHeight : Q) (rect : Rect) : bool :=
  Qltb (rect_bottom rect) 0 || Qltb windowHeight (rect_top rect).

Definition distanceOf (windowHeight : Q) (rect : Rect) : Q :=
  let sectionCenter := rect_top rect + (rect_height rect / 2) in
  let viewportCenter := windowHeight / 2 in
  Qabs (sectionCenter - viewportCenter).

(** The two zones of the tick.  The section in whose callback they are
    computed is passed along as the source has it in scope. *)
Definition sectionFadeZoneOf (windowHeight fadeZone : Q) (section : SectionContainer) : Q :=
  windowHeight * fadeZone.

Definition holdZoneOf (windowHeight : Q) (section : SectionContainer) : Q :=
  windowHeight * 0.4.

(** The local [opacity] of the tick, before clamping. *)
Definition sectionOpacity (windowHeight fadeZone : Q) (section : SectionContainer) (rect : Rect) : Q :=
  let distance := distanceOf windowHeight rect in
  let sectionFadeZone := sectionFadeZoneOf windowHeight fadeZone section in
  let holdZone := holdZoneOf windowHeight section in
  let opacity := 0 in
  if Qltb distance holdZone then 1
  else if Qltb distance sectionFadeZone then
    1 - ((distance - holdZone) / (sectionFadeZone - holdZone))
  else opacity.

(** The callback of [sectionVisuals.forEach]: the element afterwards and
    the timeouts it registered. *)
Definition updateVisual (opacity : Q) (idx : nat) (vis : Element) : Element * list Timeout :=
  if contains "challenge-cards" (classList vis) then
    let '(vis, timeouts) :=
      if Qle_bool 1 opacity && negb (truthy (animationTriggered vis)) then
        ({| classList := classAdd "section-active" (classList vis);
            animationTriggered := "true";
            style_display := style_display vis;
            style_opacity := style_opacity vis |},
         [ {| delay := 4600; target := idx |} ])
      else (vis, []) in
    let vis :=
      if Qltb opacity 0.5 && truthy (animationTriggered vis) then
        {| classList := classRemove "cards-exit" (classRemove "section-active" (classList vis));
           animationTriggered := "";
           style_display := style_display vis;
           style_opacity := style_opacity vis |}
      else vis in
    (vis, timeouts)
  else (setOpacity (clampOpacity opacity) vis, []).

(** The callback of a timeout when it fires. *)
Definition fireTimeout (vis : Element) : Element :=
  {| classList := classAdd "cards-exit" (classList vis);
     animationTriggered := animationTriggered vis;
     style_display := style_display vis;
     style_opacity := style_opacity vis |}.

Fixpoint updateVisualsFrom (opacity : Q) (idx : nat) (visuals : list Element) : list Element * list Timeout :=
  match visuals with
  | [] => ([], [])
  | vis :: rest =>
      let '(vis', ts) := updateVisual opacity idx vis in
      let '(rest', ts') := updateVisualsFrom opacity (Datatypes.S idx) rest in
      (vis' :: rest', (ts ++ ts')%list)
  end.

(** The body of [sections.forEach] in [updateSectionOpacity], for one
    section. *)
Definition updateSection (windowHeight fadeZone : Q) (sv : SectionView) : SectionView * list Timeout :=
  if outOfView windowHeight (rect sv) then
    ({| container := container sv;
        rect := rect sv;
        sectionBg := option_map (setDisplay "none") (sectionBg sv);
        sectionContent := option_map (setDisplay "none") (sectionContent sv);
        sectionImages := map (setDisplay "none") (sectionImages sv);
        sectionVisuals := map (setDisplay "none") (sectionVisuals sv) |}, [])
  else
    let opacity := sectionOpacity windowHeight fadeZone (container sv) (rect sv) in
    let shown := fun el => setDisplay "block" el in
    let '(visuals, timeouts) :=
      updateVisualsFrom opacity 0 (map shown (sectionVisuals sv)) in
    ({| container := container sv;
        rect := rect sv;
        sectionBg := option_map (fun el => setOpacity (clampOpacity opacity) (shown el)) (sectionBg sv);
        sectionContent := option_map (fun el => setOpacity (clampOpacity opacity) (shown el)) (sectionContent sv);
        sectionImages := map (fun el => setOpacity (clampOpacity opacity) (shown el)) (sectionImages sv);
        sectionVisuals := visuals |}, timeouts).

(** Scrolling moves the section: the next tick reads a new rectangle. *)
Definition scrollTo (r : Rect) (sv : SectionView) : SectionView :=
  {| container := container sv;
     rect := r;
     sectionBg := sectionBg sv;
     sectionContent := sectionContent sv;
     sectionImages := sectionImages sv;
     sectionVisuals := sectionVisuals sv |}.

(** A succession of scroll ticks on one section, one rectangle per tick,
    with every timeout registered on the way. *)
Fixpoint runTicks (windowHeight fadeZone : Q) (rects : list Rect) (sv : SectionView) : SectionView * list Timeout :=
  match rects with
  | [] => (sv, [])
  | r :: rs =>
      let '(sv1, ts1) := updateSection windowHeight fadeZone (scrollTo r sv) in
      let '(sv2, ts2) := runTicks windowHeight fadeZone rs sv1 in
      (sv2, (ts1 ++ ts2)%list)
  end.

(** The number of reveal sequences started for the visual at [idx]. *)
Definition triggersFor (idx : nat) (ts : list Timeout) : nat :=
  List.length (filter (fun t => (target t =? idx)%nat) ts).

(** The comparison container after the scroll story: its
    [style.opacity] ([None] until it is written) and its
    [style.pointerEvents]. *)
Record ComparisonContainer := mkComparison {
  cmp_opacity : option Q;
  cmp_pointerEvents : string
}.

(** The head of [updateSectionOpacity]: the comparison container stays
    hidden until the last section is done.  [lastRect] is
    [lastSection?.getBoundingClientRect()], [None] when there is no
    section; [cc] is [None] when the page has no such container.  The
    string '0' written to [style.opacity] is kept as the number 0.  With
    a viewport of height 0 the source divides by zero, which is outside
    the number model. *)
Definition updateComparison (windowHeight : Q) (lastRect : option Rect) (cc : option ComparisonContainer) : option ComparisonContainer :=
  match cc with
  | None => None
  | Some comparisonContainer =>
      match lastRect with
      | Some lastRect =>
          if Qltb (windowHeight * 0.5) (rect_bottom lastRect) then
            Some {| cmp_opacity := Some 0; cmp_pointerEvents := "none" |}
          else
            let fadeIn :=
              Qmin 1 ((windowHeight * 0.5 - rect_bottom lastRect) / (windowHeight * 0.3)) in
            Some {| cmp_opacity := Some fadeIn;
                    cmp_pointerEvents := if Qltb 0.5 fadeIn then "auto" else "none" |}
      | None => Some comparisonContainer
      end
  end.

(** The page as a tick finds it; the timeouts of a tick are paired with
    the index of their section. *)
Record Document := mkDocument {
  doc_sections : list SectionView;
  doc_comparison : option ComparisonContainer
}.

Fixpoint updateSectionsFrom (windowHeight fadeZone : Q) (index : nat) (sections : list SectionView) : list SectionView * list (nat * Timeout) :=
  match sections with
  | [] => ([], [])
  | sv :: rest =>
      let '(sv', ts) := updateSection windowHeight fadeZone sv in
      let '(rest', ts') := updateSectionsFrom windowHeight fadeZone (Datatypes.S index) rest in
      (sv' :: rest', (map (fun t => (index, t)) ts ++ ts')%list)
  end.

(** [updateSectionOpacity], the handler of scroll and load;
    [sections[sections.length - 1]] is undefined on an empty page. *)
Definition updateSectionOpacity (windowHeight fadeZone : Q) (doc : Document) : Document * list (nat * Timeout) :=
  let lastRect :=
    match doc_sections doc with
    | [] => None
    | _ => option_map rect (nth_error (doc_sections doc) (List.length (doc_sections doc) - 1))
    end in
  let comparison := updateComparison windowHeight lastRect (doc_comparison doc) in
  let '(sections, timeouts) := updateSectionsFrom windowHeight fadeZone 0 (doc_sections doc) in
  ({| doc_sections := sections; doc_comparison := comparison |}, timeouts).

(** *** Vocabulary of the properties below (not part of the source) *)

(** One tick as the visual at position [idx] undergoes it. *)
Definition tickVisual (windowHeight fadeZone : Q) (section : SectionContainer) (r : Rect) (idx : nat) (vis : Element) : Element * list Timeout :=
  if outOfView windowHeight r then (setDisplay "none" vis, [])
  else updateVisual (sectionOpacity windowHeight fadeZone section r) idx (setDisplay "block" vis).




End Builder.

(** ** positioning-helpers.js: position presets *)

Module Positioning.

(** A preset of the [positions] table: the four edges and a transform. *)
Record Preset := mkPreset {
  top : option string;
  right : option string;
  bottom : option string;
  left : option string;
  transform : option string
}.

Definition positions : list (string * Preset) :=
  [ ("top-left", mkPreset (Some "5vh") None None (Some "5vw") None);
    ("top-right", mkPreset (Some "5vh") (Some "5vw") None None None);
    ("bottom-left", mkPreset None None (Some "5vh") (Some "5vw") None);
    ("bottom-right", mkPreset None (Some "5vw") (Some "5vh") None None);
    ("top-center", mkPreset (Some "5vh") None None (Some "50%") (Some "translateX(-50%)"));
    ("bottom-center", mkPreset None None (Some "5vh") (Some "50%") (Some "translateX(-50%)"));
    ("left-center", mkPreset (Some "50%") None None (Some "5vw") (Some "translateY(-50%)"));
    ("right-center", mkPreset (Some "50%") (Some "5vw") None None (Some "translateY(-50%)"));
    ("left-top-safe", mkPreset (Some "10vh") None None (Some "5vw") None);
    ("left-bottom-safe", mkPreset None None (Some "10vh") (Some "5vw") None);
    ("right-top-safe", mkPreset (Some "10vh") (Some "5vw") None None None);
    ("right-bottom-safe", mkPreset None (Some "5vw") (Some "10vh") None None) ].

(** The properties every object literal inherits from [Object.prototype]:
    [positions[name]] is truthy for these names too, and spreading such a
    value copies no property. *)
Definition objectPrototypeNames : list string :=
  [ "constructor"; "hasOwnProperty"; "isPrototypeOf"; "propertyIsEnumerable";
    "toLocaleString"; "toString"; "valueOf"; "__proto__";
    "__defineGetter__"; "__defineSetter__"; "__lookupGetter__"; "__lookupSetter__" ].

Fixpoint ownProperty (name : string) (table : list (string * Preset)) : option Preset :=
  match table with
  | [] => None
  | (key, value) :: rest => if key =? name then Some value else ownProperty name rest
  end.

(** [getPosition]: the preset and what it writes with [console.warn]. *)
Definition getPosition (name : string) : Preset * list string :=
  match ownProperty name positions with
  | Some preset => (preset, [])
  | None =>
      if existsb (String.eqb name) objectPrototypeNames then
        (mkPreset None None None None None, [])
      else
        (withDefault (mkPreset None None None None None) (ownProperty "top-left" positions),
         ["Position preset " ++ dquote ++ name ++ dquote ++ " not found. Using top-left."])
  end.

(** A preset used as the [position] of an image layer: the validator
    reads the four edges. *)
Definition asPosition (preset : Preset) : Schema.Position :=
  Schema.mkPosition (top preset) (right preset) (bottom preset) (left preset).

End Positioning.

(** * Properties *)

(** ** Numbers and loops *)

Lemma Qltb_lt (a b : Q) : Qltb a b = true <-> a < b.
Proof.
  unfold Qltb. rewrite negb_true_iff. split; intro H.
  - apply Qnot_le_lt. intro Hle. apply Qle_bool_iff in Hle. congruence.
  - destruct (Qle_bool b a) eqn:E; [|reflexivity].
    apply Qle_bool_iff in E. lra.
Qed.

Lemma Qltb_ge (a b : Q) : Qltb a b = false <-> b <= a.
Proof.
  unfold Qltb. rewrite negb_false_iff. apply Qle_bool_iff.
Qed.

Lemma Math_round_le (x y : Q) : x <= y -> (Math_round x <= Math_round y)%Z.
Proof.
  intro H. unfold Math_round. apply Qfloor_resp_le. lra.
Qed.

Lemma Math_round_step (x y : Q) : x + 1 <= y -> (Math_round x < Math_round y)%Z.
Proof.
  intro H. unfold Math_round.
  pose proof (Qfloor_le (x + (1 # 2))) as Hx.
  assert (Hz : inject_Z (Qfloor (x + (1 # 2)) + 1) <= y + (1 # 2)).
  { rewrite inject_Z_plus. change (inject_Z 1) with 1. lra. }
  apply Qfloor_resp_le in Hz. rewrite Qfloor_Z in Hz. lia.
Qed.

Lemma Math_round_near (x : Q) :
  x - (1 # 2) < inject_Z (Math_round x) /\ inject_Z (Math_round x) <= x + (1 # 2).
Proof.
  unfold Math_round.
  pose proof (Qfloor_le (x + (1 # 2))) as Hl.
  pose proof (Qlt_floor (x + (1 # 2))) as Hu.
  rewrite inject_Z_plus in Hu. change (inject_Z 1) with 1 in Hu.
  split; lra.
Qed.

(** The loop ends on its guard: fuel beyond the [n - i] turns that the
    guard allows changes nothing. *)
Lemma forLoop_fuel {S : Type} (body : Z -> S -> S) (fuel : nat) :
  forall (i n : Z) (s : S),
    (Z.to_nat (n - i) <= fuel)%nat ->
    forLoop fuel i n body s = forLoop (Z.to_nat (n - i)) i n body s.
Proof.
  induction fuel as [|fuel IH]; intros i n s Hle.
  - assert (E : Z.to_nat (n - i) = 0%nat) by lia. rewrite E. reflexivity.
  - simpl. destruct (i <? n)%Z eqn:Elt.
    + apply Z.ltb_lt in Elt.
      assert (E : Z.to_nat (n - i) = Datatypes.S (Z.to_nat (n - (i + 1)))) by lia.
      rewrite E. simpl. apply Z.ltb_lt in Elt. rewrite Elt.
      apply IH. lia.
    + apply Z.ltb_ge in Elt.
      assert (E : Z.to_nat (n - i) = 0%nat) by lia. rewrite E. reflexivity.
Qed.

Section ForLoop.

Variable step : Q.
Variable body : Z -> Q -> Q.
Hypothesis body_step : forall (i : Z) (acc : Q), body i acc == acc + step.


End ForLoop.

(** ** Timing calculus *)

Module TimingFacts.
Import ScrollTiming.




(** Where exact arithmetic and doubles part ways.  For the sections of the
    example scene (no cards) both give 335 and 355; for three cards in a
    last section the binary64 sum is just above 439 and [Math.ceil]
    returns 440, one more than the exact ceiling. *)
Remark calculateSectionHeight_binary64 :
  Binary64.calculateSectionHeight64 0 false 0.7 = Some 335%Z
  /\ Binary64.calculateSectionHeight64 0 true 0.7 = Some 355%Z
  /\ Binary64.calculateSectionHeight64 3 true 0.7 = Some 440%Z
  /\ calculateSectionHeight (mkHeightOptions (Some 3%Z) (Some true) (Some 0.7)) = 439%Z.
Proof.
  repeat split; vm_compute; reflexivity.
Qed.



Lemma pixelThreshold_closed (windowHeight : Q) (cardIndex : Z) :
  (0 <= cardIndex)%Z ->
  pixelThreshold windowHeight cardIndex
  == windowHeight * PANEL_READING_HOLD
     + inject_Z cardIndex * (windowHeight * (CARD_FADE_DISTANCE + CARD_READING_HOLD)).
Proof.
  intro H. unfold pixelThreshold.
  destruct (0 <? cardIndex)%Z eqn:E.
  - ring.
  - apply Z.ltb_ge in E. assert (cardIndex = 0%Z) by lia. subst.
    change (inject_Z 0) with 0. ring.
Qed.

Lemma pixelThreshold_succ (windowHeight : Q) (cardIndex : Z) :
  (0 <= cardIndex)%Z ->
  pixelThreshold windowHeight (cardIndex + 1)
  == pixelThreshold windowHeight cardIndex
     + windowHeight * (CARD_FADE_DISTANCE + CARD_READING_HOLD).
Proof.
  intro H. rewrite !pixelThreshold_closed by lia.
  rewrite inject_Z_plus. change (inject_Z 1) with 1. ring.
Qed.

(** C7, as stated, fails: the returned thresholds are rounded, so they
    are neither evenly spaced (viewport 1080: 1296, 1598, 1901) nor
    strictly increasing for every viewport height > 0 (viewport 1: cards
    0 and 1 both get 1). *)
Lemma calculateCardThreshold_not_even_nor_strict :
  (threshold (calculateCardThreshold 1080 2) - threshold (calculateCardThreshold 1080 1)
   <> threshold (calculateCardThreshold 1080 1) - threshold (calculateCardThreshold 1080 0))%Z
  /\ 0 < 1
  /\ ~ (threshold (calculateCardThreshold 1 0) < threshold (calculateCardThreshold 1 1))%Z.
Proof.
  split; [|split].
  - vm_compute. discriminate.
  - reflexivity.
  - vm_compute. discriminate.
Qed.

(** C7, amended.  For every viewport height > 0 and card index >= 0:
    card 0 gets round(windowHeight x PANEL_READING_HOLD); card i gets
    round(windowHeight x PANEL_READING_HOLD + i x windowHeight x
    (CARD_FADE_DISTANCE + CARD_READING_HOLD)); before rounding the
    thresholds are evenly spaced and strictly increasing; the returned
    (rounded) thresholds never decrease, two neighbours differ by the
    unit windowHeight x (CARD_FADE_DISTANCE + CARD_READING_HOLD) up to
    less than one pixel, and they increase strictly as soon as that unit
    is at least one pixel. *)
Theorem calculateCardThreshold_spacing (windowHeight : Q) (cardIndex : Z) :
  0 < windowHeight -> (0 <= cardIndex)%Z ->
  let unit := windowHeight * (CARD_FADE_DISTANCE + CARD_READING_HOLD) in
  let t := fun i => threshold (calculateCardThreshold windowHeight i) in
  t 0%Z = Math_round (windowHeight * PANEL_READING_HOLD)
  /\ t cardIndex = Math_round (windowHeight * PANEL_READING_HOLD + inject_Z cardIndex * unit)
  /\ pixelThreshold windowHeight (cardIndex + 1)%Z%Z - pixelThreshold windowHeight cardIndex == unit
  /\ pixelThreshold windowHeight cardIndex < pixelThreshold windowHeight (cardIndex + 1)%Z%Z
  /\ (t cardIndex <= t (cardIndex + 1)%Z)%Z
  /\ (unit - 1 < inject_Z (t (cardIndex + 1)%Z - t cardIndex)
      /\ inject_Z (t (cardIndex + 1)%Z - t cardIndex) < unit + 1)
  /\ (1 <= unit -> (t cardIndex < t (cardIndex + 1)%Z)%Z).
Proof.
  intros Hw Hi unit t.
  assert (Hunit : 0 < unit).
  { unfold unit. apply Qmult_lt_0_compat; [exact Hw | reflexivity]. }
  pose proof (pixelThreshold_succ windowHeight cardIndex Hi) as Hs.
  fold unit in Hs.
  split; [reflexivity|].
  split.
  { unfold t. simpl. unfold Math_round. apply Qfloor_comp.
    rewrite (pixelThreshold_closed windowHeight cardIndex Hi). reflexivity. }
  split; [lra|].
  split; [lra|].
  split.
  { unfold t. simpl. apply Math_round_le. lra. }
  split.
  { unfold t. simpl. unfold Z.sub. rewrite inject_Z_plus, inject_Z_opp.
    pose proof (Math_round_near (pixelThreshold windowHeight (cardIndex + 1))).
    pose proof (Math_round_near (pixelThreshold windowHeight cardIndex)).
    split; lra. }
  intro H1. unfold t. simpl. apply Math_round_step. lra.
Qed.

Lemma calculateCardThreshold_spacing_witness :
  (threshold (calculateCardThreshold 1080 1) <= threshold (calculateCardThreshold 1080 (1 + 1)))%Z.
Proof.
  assert (Hw : 0 < 1080) by reflexivity.
  assert (Hi : (0 <= 1)%Z) by lia.
  exact (proj1 (proj2 (proj2 (proj2 (proj2
    (calculateCardThreshold_spacing 1080 1 Hw Hi)))))).
Defined.

End TimingFacts.

(** ** Scroll visibility controller *)

Module ControllerFacts.
Import Schema Builder.

Lemma clampOpacity_bounds (opacity : Q) :
  0 <= clampOpacity opacity /\ clampOpacity opacity <= 1.
Proof.
  unfold clampOpacity. split.
  - apply Q.le_max_l.
  - apply Q.max_lub; [discriminate | apply Q.le_min_l].
Qed.

Lemma clampOpacity_id (opacity : Q) :
  0 <= opacity -> opacity <= 1 -> clampOpacity opacity == opacity.
Proof.
  intros H0 H1. unfold clampOpacity.
  rewrite (Q.min_r 1 opacity) by exact H1.
  apply Q.max_r. exact H0.
Qed.

Section Opacity.

Variables (windowHeight fadeZone : Q) (section : SectionContainer) (r : Rect).

Let d := distanceOf windowHeight r.
Let hold := holdZoneOf windowHeight section.
Let fade := sectionFadeZoneOf windowHeight fadeZone section.
Let opacity := sectionOpacity windowHeight fadeZone section r.

Lemma sectionOpacity_held : d < hold -> opacity = 1.
Proof.
  intro H. unfold opacity, sectionOpacity. fold d. fold hold.
  apply Qltb_lt in H. rewrite H. reflexivity.
Qed.

Lemma sectionOpacity_fading :
  hold <= d -> d < fade ->
  opacity = 1 - ((d - hold) / (fade - hold)).
Proof.
  intros H1 H2. unfold opacity, sectionOpacity. fold d. fold hold. fold fade.
  apply Qltb_ge in H1. apply Qltb_lt in H2. rewrite H1, H2. reflexivity.
Qed.

Lemma sectionOpacity_hidden : hold <= d -> fade <= d -> opacity = 0.
Proof.
  intros H1 H2. unfold opacity, sectionOpacity. fold d. fold hold. fold fade.
  apply Qltb_ge in H1. apply Qltb_ge in H2. rewrite H1, H2. reflexivity.
Qed.

Lemma fading_fraction_bounds :
  hold <= d -> d < fade ->
  0 <= (d - hold) / (fade - hold) /\ (d - hold) / (fade - hold) < 1.
Proof.
  intros H1 H2.
  assert (Hpos : 0 < fade - hold) by lra.
  split.
  - apply Qle_shift_div_l; [exact Hpos | lra].
  - apply Qlt_shift_div_r; [exact Hpos | lra].
Qed.

(** The local opacity is in [0, 1] whatever the zones are: the fading
    branch is only entered between the two zones. *)
Lemma sectionOpacity_range : 0 <= opacity /\ opacity <= 1.
Proof.
  destruct (Qlt_le_dec d hold) as [H|H].
  - rewrite (sectionOpacity_held H). split; discriminate.
  - destruct (Qlt_le_dec d fade) as [H'|H'].
    + rewrite (sectionOpacity_fading H H').
      destruct (fading_fraction_bounds H H'). split; lra.
    + rewrite (sectionOpacity_hidden H H'). split; discriminate.
Qed.

End Opacity.

(** C2.  When the hold zone of the tick is strictly below its fade zone,
    the opacity is 1 for distance < holdZone, 1 - (distance - holdZone) /
    (fadeZone - holdZone) for holdZone <= distance < fadeZone and 0 for
    distance >= fadeZone; the value written to the elements is that
    opacity clamped to [0, 1]; at distance = holdZone it is 1, at
    distance = fadeZone it is 0 and half-way between the two it is 1/2. *)
Theorem sectionOpacity_policy (windowHeight fadeZone : Q) (sv : SectionView) :
  let d := distanceOf windowHeight (rect sv) in
  let hold := holdZoneOf windowHeight (container sv) in
  let fade := sectionFadeZoneOf windowHeight fadeZone (container sv) in
  let opacity := sectionOpacity windowHeight fadeZone (container sv) (rect sv) in
  hold < fade ->
  (d < hold -> opacity == 1)
  /\ (hold <= d -> d < fade -> opacity == 1 - (d - hold) / (fade - hold))
  /\ (fade <= d -> opacity == 0)
  /\ (outOfView windowHeight (rect sv) = false ->
      let sv' := fst (updateSection windowHeight fadeZone sv) in
      option_map style_opacity (sectionBg sv')
        = option_map (fun _ => Some (clampOpacity opacity)) (sectionBg sv)
      /\ option_map style_opacity (sectionContent sv')
        = option_map (fun _ => Some (clampOpacity opacity)) (sectionContent sv)
      /\ map style_opacity (sectionImages sv')
        = map (fun _ => Some (clampOpacity opacity)) (sectionImages sv))
  /\ (0 <= clampOpacity opacity /\ clampOpacity opacity <= 1)
  /\ clampOpacity opacity == opacity
  /\ (d == hold -> opacity == 1)
  /\ (d == fade -> opacity == 0)
  /\ (d == (hold + fade) / 2 -> opacity == 1 # 2).
Proof.
  intros d hold fade opacity Hzones.
  assert (Hheld : d < hold -> opacity == 1).
  { intro H. unfold opacity. rewrite sectionOpacity_held by exact H. reflexivity. }
  assert (Hfading : hold <= d -> d < fade -> opacity == 1 - (d - hold) / (fade - hold)).
  { intros H1 H2. unfold opacity. rewrite sectionOpacity_fading by assumption. reflexivity. }
  assert (Hhidden : fade <= d -> opacity == 0).
  { intro H. unfold opacity. rewrite sectionOpacity_hidden; [reflexivity | | exact H].
    fold fade in H. fold d. fold hold. unfold d, hold, fade in *. lra. }
  assert (Hstyle : outOfView windowHeight (rect sv) = false ->
      let sv' := fst (updateSection windowHeight fadeZone sv) in
      option_map style_opacity (sectionBg sv')
        = option_map (fun _ => Some (clampOpacity opacity)) (sectionBg sv)
      /\ option_map style_opacity (sectionContent sv')
        = option_map (fun _ => Some (clampOpacity opacity)) (sectionContent sv)
      /\ map style_opacity (sectionImages sv')
        = map (fun _ => Some (clampOpacity opacity)) (sectionImages sv)).
  { intros Hin sv'. unfold sv', updateSection. rewrite Hin.
    destruct (updateVisualsFrom _ 0 _) as [vs ts]. simpl. fold opacity.
    repeat split.
    - destruct (sectionBg sv); reflexivity.
    - destruct (sectionContent sv); reflexivity.
    - rewrite map_map. reflexivity. }
  assert (Hclamp : clampOpacity opacity == opacity).
  { destruct (sectionOpacity_range windowHeight fadeZone (container sv) (rect sv)).
    apply clampOpacity_id; assumption. }
  clearbody opacity d hold fade.
  assert (Hnz : ~ fade - hold == 0) by (clear - Hzones; intro E; lra).
  split; [exact Hheld|]. split; [exact Hfading|]. split; [exact Hhidden|].
  split; [exact Hstyle|].
  split; [apply clampOpacity_bounds|].
  split; [exact Hclamp|].
  split.
  { intro H. eapply Qeq_trans; [apply Hfading; clear - H Hzones; lra|].
    rewrite H. field. exact Hnz. }
  split.
  { intro H. apply Hhidden. clear - H. lra. }
  intro H.
  assert (Hd : d == (hold + fade) * (1 # 2)) by (rewrite H; field).
  eapply Qeq_trans; [apply Hfading; clear - Hd Hzones; lra|].
  rewrite H. field. exact Hnz.
Qed.

Lemma sectionOpacity_policy_witness :
  let sv := mkView (mkContainer "s" "fullscreen-section" "s" "250vh")
                   (mkRect 550 1550 1000) None None [] [] in
  sectionOpacity 1000 0.7 (container sv) (rect sv) == 1 # 2.
Proof.
  intro sv.
  assert (Hz : holdZoneOf 1000 (container sv) < sectionFadeZoneOf 1000 0.7 (container sv))
    by reflexivity.
  apply (sectionOpacity_policy 1000 0.7 sv Hz).
  vm_compute. reflexivity.
Defined.

(** C4.  What the code does: the zones of a tick are the viewport height
    times the one [fadeZone] given to [setupScrollBehavior] and times the
    constant 0.4; the [fadeZone] a section declares in its [scroll]
    configuration reaches neither [buildSection] nor the tick.  Two
    sections declaring 0.5 and 0.9 get the same opacity 1/3 at distance
    600 in a viewport of 1000 under the default 0.7, where their own
    declarations would give 0 and 3/5. *)
Theorem section_scroll_fadeZone_ignored (windowHeight fadeZone : Q) (s : Section) (h : option string) (fz1 fz2 : option Q) (r : Rect) :
  let declare := fun fz => mkSection (id s) (hero s) (layers s) (Some (mkScroll h fz)) in
  buildSection (declare fz1) = buildSection (declare fz2)
  /\ sectionFadeZoneOf windowHeight fadeZone (buildSection (declare fz1)) = windowHeight * fadeZone
  /\ holdZoneOf windowHeight (buildSection (declare fz1)) = windowHeight * 0.4
  /\ sectionOpacity windowHeight fadeZone (buildSection (declare fz1)) r
     = sectionOpacity windowHeight fadeZone (buildSection (declare fz2)) r
  /\ sectionOpacity 1000 0.7
       (buildSection (mkSection (Some "a") None None (Some (mkScroll None (Some 0.5)))))
       (mkRect 600 1600 1000) == 1 # 3
  /\ sectionOpacity 1000 0.7
       (buildSection (mkSection (Some "b") None None (Some (mkScroll None (Some 0.9)))))
       (mkRect 600 1600 1000) == 1 # 3.
Proof.
  intro declare. repeat split; vm_compute; reflexivity.
Qed.

(** *** Card sequences *)

Lemma contains_app (c : string) (cl1 cl2 : list string) :
  contains c (cl1 ++ cl2) = contains c cl1 || contains c cl2.
Proof. unfold contains. apply existsb_app. Qed.

Lemma contains_classAdd (c c' : string) (cl : list string) :
  contains c cl = true -> contains c (classAdd c' cl) = true.
Proof.
  intro H. unfold classAdd. destruct (contains c' cl); [exact H|].
  rewrite contains_app, H. reflexivity.
Qed.

Lemma contains_classRemove_other (c c' : string) (cl : list string) :
  (c =? c') = false -> contains c (classRemove c' cl) = contains c cl.
Proof.
  intro Hne. unfold contains, classRemove.
  induction cl as [|x cl IH]; simpl; [reflexivity|].
  destruct (x =? c') eqn:E; simpl.
  - apply String.eqb_eq in E. subst x. rewrite Hne, IH. reflexivity.
  - rewrite IH. reflexivity.
Qed.


Lemma updateVisual_targets (opacity : Q) (idx : nat) (vis : Element) :
  forall t, In t (snd (updateVisual opacity idx vis)) -> target t = idx.
Proof.
  intros t. unfold updateVisual.
  destruct (contains _ _); [|intros []].
  destruct (Qle_bool 1 opacity && _); simpl.
  - intros [<-|[]]. reflexivity.
  - intros [].
Qed.

Lemma triggersFor_app (idx : nat) (ts1 ts2 : list Timeout) :
  triggersFor idx (ts1 ++ ts2) = (triggersFor idx ts1 + triggersFor idx ts2)%nat.
Proof.
  unfold triggersFor. rewrite filter_app, length_app. reflexivity.
Qed.

Lemma triggersFor_own (idx : nat) (ts : list Timeout) :
  (forall t, In t ts -> target t = idx) -> triggersFor idx ts = List.length ts.
Proof.
  intro H. unfold triggersFor. induction ts as [|t ts IH]; simpl; [reflexivity|].
  rewrite (H t (or_introl eq_refl)), Nat.eqb_refl. simpl.
  rewrite IH; [reflexivity|]. intros t' Ht'. apply H. right. exact Ht'.
Qed.

Lemma triggersFor_other (idx idx' : nat) (ts : list Timeout) :
  idx <> idx' -> (forall t, In t ts -> target t = idx') -> triggersFor idx ts = 0%nat.
Proof.
  intros Hne H. unfold triggersFor. induction ts as [|t ts IH]; simpl; [reflexivity|].
  rewrite (H t (or_introl eq_refl)).
  destruct (Nat.eqb_spec idx' idx) as [E|_]; [congruence|].
  apply IH. intros t' Ht'. apply H. right. exact Ht'.
Qed.

Lemma updateVisualsFrom_later (opacity : Q) (idx : nat) (visuals : list Element) :
  forall start, (idx < start)%nat ->
    triggersFor idx (snd (updateVisualsFrom opacity start visuals)) = 0%nat.
Proof.
  induction visuals as [|v vs IH]; intros start Hlt; simpl; [reflexivity|].
  destruct (updateVisual opacity start v) as [v' ts] eqn:Ev.
  specialize (IH (S start)).
  destruct (updateVisualsFrom opacity (S start) vs) as [vs' ts'].
  simpl in *. rewrite triggersFor_app, IH by lia.
  rewrite (triggersFor_other idx start ts); [reflexivity | lia |].
  intros t Ht. apply (updateVisual_targets opacity start v). rewrite Ev. exact Ht.
Qed.

Lemma updateVisualsFrom_nth (opacity : Q) (visuals : list Element) :
  forall (start k : nat) (vis : Element),
    nth_error visuals k = Some vis ->
    nth_error (fst (updateVisualsFrom opacity start visuals)) k
      = Some (fst (updateVisual opacity (start + k) vis))
    /\ triggersFor (start + k) (snd (updateVisualsFrom opacity start visuals))
      = List.length (snd (updateVisual opacity (start + k) vis)).
Proof.
  induction visuals as [|v vs IH]; intros start k vis Hk.
  - destruct k; discriminate.
  - simpl.
    destruct (updateVisual opacity start v) as [v' ts] eqn:Ev.
    destruct (updateVisualsFrom opacity (S start) vs) as [vs' ts'] eqn:Evs.
    destruct k as [|k]; simpl in *.
    + injection Hk as ->. rewrite Nat.add_0_r, Ev. simpl. split; [reflexivity|].
      rewrite triggersFor_app.
      rewrite (triggersFor_own start ts).
      2:{ intros t Ht. apply (updateVisual_targets opacity start vis). rewrite Ev. exact Ht. }
      assert (H0 : triggersFor start ts' = 0%nat).
      { pose proof (updateVisualsFrom_later opacity start vs (S start)) as Hl.
        rewrite Evs in Hl. apply Hl. lia. }
      rewrite H0. lia.
    + destruct (IH (S start) k vis Hk) as [H1 H2]. rewrite Evs in H1, H2. simpl in H1, H2.
      rewrite Nat.add_succ_r.
      split; [exact H1|].
      rewrite triggersFor_app, H2.
      rewrite (triggersFor_other (S (start + k)) start ts); [reflexivity | lia |].
      intros t Ht. apply (updateVisual_targets opacity start v). rewrite Ev. exact Ht.
Qed.


(** The tick of a section acts on each of its visuals as [tickVisual]. *)
Lemma updateSection_visual (windowHeight fadeZone : Q) (sv : SectionView) (k : nat) (vis : Element) :
  nth_error (sectionVisuals sv) k = Some vis ->
  nth_error (sectionVisuals (fst (updateSection windowHeight fadeZone sv))) k
    = Some (fst (tickVisual windowHeight fadeZone (container sv) (rect sv) k vis))
  /\ triggersFor k (snd (updateSection windowHeight fadeZone sv))
    = List.length (snd (tickVisual windowHeight fadeZone (container sv) (rect sv) k vis)).
Proof.
  intro Hk. unfold updateSection, tickVisual.
  destruct (outOfView windowHeight (rect sv)); simpl.
  - rewrite nth_error_map, Hk. split; reflexivity.
  - pose proof (updateVisualsFrom_nth
                  (sectionOpacity windowHeight fadeZone (container sv) (rect sv))
                  (map (fun el => setDisplay "block" el) (sectionVisuals sv))
                  0 k (setDisplay "block" vis)) as H.
    rewrite nth_error_map, Hk in H. specialize (H eq_refl).
    destruct (updateVisualsFrom _ 0 _) as [vs ts]. simpl in *. exact H.
Qed.

Lemma full_not_half (opacity : Q) :
  Qle_bool 1 opacity = true -> Qltb opacity 0.5 = false.
Proof.
  intro H. apply Qle_bool_iff in H. apply Qltb_ge. lra.
Qed.

Section CardContainer.

Variables (windowHeight fadeZone : Q) (section : SectionContainer).
Variables (idx : nat) (vis : Element).
Hypothesis vis_cards : contains "challenge-cards" (classList vis) = true.

Let tick (r : Rect) := tickVisual windowHeight fadeZone section r idx vis.


Lemma tickVisual_cards (r : Rect) :
  contains "challenge-cards" (classList (fst (tick r))) = true.
Proof.
  unfold tick, tickVisual.
  destruct (outOfView windowHeight r); simpl; [exact vis_cards|].
  unfold updateVisual. simpl. rewrite vis_cards.
  destruct (Qle_bool 1 _ && negb (truthy (animationTriggered vis))); simpl.
  - destruct (Qltb _ 0.5 && _); simpl.
    + rewrite !contains_classRemove_other by reflexivity.
      apply contains_classAdd. exact vis_cards.
    + apply contains_classAdd. exact vis_cards.
  - destruct (Qltb _ 0.5 && _); simpl.
    + rewrite !contains_classRemove_other by reflexivity. exact vis_cards.
    + exact vis_cards.
Qed.




End CardContainer.





End ControllerFacts.

(** ** Template literals: telling messages apart by their head *)

Module StringFacts.

Lemma append_assoc (a b c : string) : (a ++ b) ++ c = a ++ (b ++ c).
Proof.
  induction a as [|x a IH]; simpl; [reflexivity|]. rewrite IH. reflexivity.
Qed.

Lemma prefix_cons (a b : ascii) (s t : string) :
  String.prefix (String a s) (String b t) = (a =? b)%char && String.prefix s t.
Proof.
  simpl. destruct (ascii_dec a b) as [E|E].
  - subst. rewrite Ascii.eqb_refl. reflexivity.
  - apply Ascii.eqb_neq in E. rewrite E. reflexivity.
Qed.

Lemma prefix_nil (s : string) : String.prefix "" s = true.
Proof. destruct s; reflexivity. Qed.

Lemma prefix_app (a b c : string) :
  String.prefix (a ++ b) (a ++ c) = String.prefix b c.
Proof.
  induction a as [|x a IH]; [reflexivity|].
  change (String.prefix (String x (a ++ b)) (String x (a ++ c)) = String.prefix b c).
  rewrite prefix_cons, Ascii.eqb_refl, IH. reflexivity.
Qed.

Lemma prefix_app_l (a c : string) : String.prefix a (a ++ c) = true.
Proof.
  induction a as [|x a IH]; [apply prefix_nil|].
  change (String.prefix (String x a) (String x (a ++ c)) = true).
  rewrite prefix_cons, Ascii.eqb_refl, IH. reflexivity.
Qed.

Lemma string_of_uint_digits (d : uint) : allDigits (NilEmpty.string_of_uint d) = true.
Proof.
  induction d; simpl; try exact IHd; reflexivity.
Qed.

Lemma natToString_digits (n : nat) : allDigits (natToString n) = true.
Proof. apply string_of_uint_digits. Qed.

Lemma natToString_inj (n m : nat) : natToString n = natToString m -> n = m.
Proof.
  unfold natToString. intro H.
  apply Unsigned.to_uint_inj.
  pose proof (NilEmpty.usu (Nat.to_uint n)) as Hn.
  pose proof (NilEmpty.usu (Nat.to_uint m)) as Hm.
  rewrite H in Hn. congruence.
Qed.

(** Two runs of digits, each closed by a character that is not a digit:
    one text is a prefix of the other only if the runs are the same. *)
Lemma prefix_digits (ds : string) :
  forall (ds' : string) (c c' : ascii) (r r' : string),
    allDigits ds = true -> allDigits ds' = true ->
    isDigit c = false -> isDigit c' = false ->
    String.prefix (ds ++ String c r) (ds' ++ String c' r')
    = (ds =? ds') && ((c =? c')%char && String.prefix r r').
Proof.
  induction ds as [|x ds IH]; intros ds' c c' r r' Hd Hd' Hc Hc'.
  - destruct ds' as [|y ds'].
    + simpl append. rewrite prefix_cons. reflexivity.
    + simpl in Hd'. apply andb_true_iff in Hd' as [Hy _].
      change (String.prefix (String c r) (String y (ds' ++ String c' r'))
              = false && ((c =? c')%char && String.prefix r r')).
      rewrite prefix_cons.
      destruct (Ascii.eqb_spec c y) as [E|E]; [congruence | reflexivity].
  - simpl in Hd. apply andb_true_iff in Hd as [Hx Hds].
    destruct ds' as [|y ds'].
    + change (String.prefix (String x (ds ++ String c r)) (String c' r')
              = false && ((c =? c')%char && String.prefix r r')).
      rewrite prefix_cons.
      destruct (Ascii.eqb_spec x c') as [E|E]; [congruence | reflexivity].
    + simpl in Hd'. apply andb_true_iff in Hd' as [Hy Hds'].
      change (String.prefix (String x (ds ++ String c r)) (String y (ds' ++ String c' r'))
              = (String x ds =? String y ds') && ((c =? c')%char && String.prefix r r')).
      rewrite prefix_cons, (IH ds' c c' r r' Hds Hds' Hc Hc').
      simpl String.eqb. destruct (Ascii.eqb x y); reflexivity.
Qed.

Lemma natToString_eqb (n m : nat) : (natToString n =? natToString m) = (n =? m)%nat.
Proof.
  destruct (Nat.eqb_spec n m) as [E|E].
  - subst. apply String.eqb_refl.
  - apply String.eqb_neq. intro H. apply E, natToString_inj, H.
Qed.

(** The same for two printed indices. *)
Lemma prefix_index (n m : nat) (c c' : ascii) (r r' : string) :
  isDigit c = false -> isDigit c' = false ->
  String.prefix (natToString n ++ String c r) (natToString m ++ String c' r')
  = (n =? m)%nat && ((c =? c')%char && String.prefix r r').
Proof.
  intros Hc Hc'.
  rewrite (prefix_digits _ _ c c' r r' (natToString_digits n) (natToString_digits m) Hc Hc').
  rewrite natToString_eqb. reflexivity.
Qed.

End StringFacts.

(** ** Callbacks that only push *)

Module ArrayFacts.

Lemma count_app {A : Type} (p : A -> bool) (l1 l2 : list A) :
  count p (l1 ++ l2) = (count p l1 + count p l2)%nat.
Proof. unfold count. rewrite filter_app, length_app. reflexivity. Qed.

Lemma count_single {A : Type} (p : A -> bool) (x : A) :
  count p [x] = if p x then 1%nat else 0%nat.
Proof. unfold count. simpl. destruct (p x); reflexivity. Qed.


Lemma count_pos_existsb {A : Type} (p : A -> bool) (l : list A) :
  existsb p l = true <-> (0 < count p l)%nat.
Proof.
  unfold count. induction l as [|x l IH]; simpl.
  - split; [discriminate | lia].
  - destruct (p x); simpl; [split; [lia | reflexivity] | exact IH].
Qed.

Section Writer.

Context {A : Type}.
Variable f : A -> nat -> list string -> list string.
Variable g : A -> nat -> list string.
Hypothesis f_pushes : forall x i acc, f x i acc = (acc ++ g x i)%list.

(** A [forEach] whose callback only pushes leaves the pushed messages
    behind, element after element. *)
Lemma forEachFrom_pushes (arr : list A) :
  forall (idx : nat) (acc : list string),
    forEachFrom idx f arr acc = (acc ++ List.concat (imapFrom idx g arr))%list.
Proof.
  induction arr as [|x arr IH]; intros idx acc; simpl.
  - rewrite app_nil_r. reflexivity.
  - rewrite IH, f_pushes, <- app_assoc. reflexivity.
Qed.

End Writer.

Section CountAt.

Context {A : Type}.
Variable p : string -> bool.
Variable g : A -> nat -> list string.

Lemma count_elsewhere (arr : list A) :
  forall idx,
    (forall j y, (idx <= j)%nat -> count p (g y j) = 0%nat) ->
    count p (List.concat (imapFrom idx g arr)) = 0%nat.
Proof.
  induction arr as [|x arr IH]; intros idx H; simpl; [reflexivity|].
  rewrite count_app, H by lia. rewrite IH; [reflexivity|].
  intros j y Hj. apply H. lia.
Qed.

(** When only the element at one index can push a message that [p]
    accepts, the whole array pushes as many as that element. *)
Lemma count_at (arr : list A) :
  forall (idx k : nat) (x : A),
    nth_error arr k = Some x ->
    (forall j y, j <> (idx + k)%nat -> count p (g y j) = 0%nat) ->
    count p (List.concat (imapFrom idx g arr)) = count p (g x (idx + k)%nat).
Proof.
  induction arr as [|a arr IH]; intros idx k x Hk Hother.
  - destruct k; discriminate.
  - simpl. rewrite count_app. destruct k as [|k]; simpl in Hk.
    + injection Hk as ->. rewrite Nat.add_0_r in *.
      rewrite count_elsewhere; [lia|].
      intros j y Hj. apply Hother. lia.
    + rewrite (Hother idx a) by lia.
      rewrite (IH (S idx) k x Hk).
      * rewrite Nat.add_succ_r. reflexivity.
      * intros j y Hj. apply Hother. lia.
Qed.

Lemma in_concat_imapFrom (m : string) (arr : list A) :
  forall (idx k : nat) (x : A),
    nth_error arr k = Some x ->
    In m (g x (idx + k)%nat) ->
    In m (List.concat (imapFrom idx g arr)).
Proof.
  induction arr as [|a arr IH]; intros idx k x Hk Hin.
  - destruct k; discriminate.
  - simpl. apply in_or_app. destruct k as [|k]; simpl in Hk.
    + injection Hk as ->. left. rewrite Nat.add_0_r in Hin. exact Hin.
    + right. rewrite Nat.add_succ_r in Hin. apply (IH (S idx) k x Hk Hin).
Qed.

End CountAt.

End ArrayFacts.

(** ** Overlap detector *)

Module ValidatorFacts.
Import Schema Validator StringFacts ArrayFacts.

Lemma jsLt_iff (a b : JsNum) : jsLt a b = true <-> jsLess a b.
Proof.
  destruct a as [|x], b as [|y]; simpl; try (split; [discriminate | intros []]).
  apply Qltb_lt.
Qed.

Lemma jsGt_iff (a b : JsNum) : jsGt a b = true <-> jsGreater a b.
Proof. apply jsLt_iff. Qed.

(** C8.  [boxesOverlap box1 box2] is true if and only if NOT (right1 <
    left2 OR left1 > right2 OR bottom1 < top2 OR top1 > bottom2); for
    boxes whose edges are all numbers this is the closed-rectangle
    intersection test. *)
Theorem boxesOverlap_iff (box1 box2 : Bounds) :
  (boxesOverlap box1 box2 = true <->
   ~ (jsLess (right box1) (left box2)
      \/ jsGreater (left box1) (right box2)
      \/ jsLess (bottom box1) (top box2)
      \/ jsGreater (top box1) (bottom box2)))
  /\ (forall (t1 r1 b1 l1 t2 r2 b2 l2 : Q) (w1 h1 w2 h2 : JsNum),
        boxesOverlap (mkBounds (Num t1) (Num r1) (Num b1) (Num l1) w1 h1)
                     (mkBounds (Num t2) (Num r2) (Num b2) (Num l2) w2 h2) = true
        <-> l2 <= r1 /\ l1 <= r2 /\ t2 <= b1 /\ t1 <= b2).
Proof.
  assert (Hgen : forall box1 box2, boxesOverlap box1 box2 = true <->
   ~ (jsLess (right box1) (left box2)
      \/ jsGreater (left box1) (right box2)
      \/ jsLess (bottom box1) (top box2)
      \/ jsGreater (top box1) (bottom box2))).
  { clear. intros box1 box2. unfold boxesOverlap. rewrite negb_true_iff.
    rewrite <- !jsLt_iff, <- !jsGt_iff.
    rewrite <- !orb_true_iff, !orb_assoc.
    destruct (_ || _ || _ || _); split; intro H;
      try reflexivity; try discriminate.
    exfalso. apply H. reflexivity. }
  split; [apply Hgen|].
  intros t1 r1 b1 l1 t2 r2 b2 l2 w1 h1 w2 h2.
  rewrite Hgen. unfold jsGreater, jsLess. simpl. split.
  - intro H. repeat split; apply Qnot_lt_le; intro H'; apply H; tauto.
  - intros (H1 & H2 & H3 & H4) [H|[H|[H|H]]]; lra.
Qed.

Lemma parsePosition_truthy (w : Window) (value : option string) (containerSize : Q) :
  truthyStr value = true -> exists n, parsePosition w value containerSize = Some n.
Proof.
  intro H. unfold parsePosition. rewrite H. simpl.
  repeat match goal with
         | |- context [if ?b then _ else _] => destruct b
         end; eexists; reflexivity.
Qed.

Lemma edgeOf_none (w : Window) (value : option string) (containerSize : Q) :
  edgeOf w value containerSize = None <-> truthyStr value = false.
Proof.
  unfold edgeOf. destruct (truthyStr value) eqn:E.
  - destruct (parsePosition_truthy w value containerSize E) as [n ->].
    split; discriminate.
  - split; reflexivity.
Qed.

Lemma calculateImageBounds_none (w : Window) (pos : Position) (sz : option Size) :
  calculateImageBounds w pos sz = None <-> resolvable pos = false.
Proof.
  unfold calculateImageBounds, resolvable.
  pose proof (edgeOf_none w (pos_top pos) (innerHeight w)) as Ht.
  pose proof (edgeOf_none w (pos_bottom pos) (innerHeight w)) as Hb.
  pose proof (edgeOf_none w (pos_left pos) (innerWidth w)) as Hl.
  pose proof (edgeOf_none w (pos_right pos) (innerWidth w)) as Hr.
  destruct (edgeOf w (pos_top pos) (innerHeight w)) as [t|];
  destruct (edgeOf w (pos_bottom pos) (innerHeight w)) as [b|];
  destruct (edgeOf w (pos_left pos) (innerWidth w)) as [l|];
  destruct (edgeOf w (pos_right pos) (innerWidth w)) as [r|];
  simpl;
  destruct (truthyStr (pos_top pos)); destruct (truthyStr (pos_bottom pos));
  destruct (truthyStr (pos_left pos)); destruct (truthyStr (pos_right pos));
  simpl; intuition congruence.
Qed.

Lemma checkLayer_pushes (w : Window) (heroBounds : Bounds) (layer : Layer) (idx : nat) (acc : list string) :
  checkLayer w heroBounds layer idx acc = (acc ++ layerWarnings w heroBounds layer idx)%list.
Proof.
  unfold checkLayer, layerWarnings, push.
  destruct (typeIs "image" (type layer)); destruct (position layer) as [pos|];
    try destruct (calculateImageBounds w pos (size layer)) as [b|];
    try destruct (boxesOverlap heroBounds b);
    destruct (typeIs "custom" (type layer));
    simpl; rewrite ?app_nil_r, <- ?app_assoc; reflexivity.
Qed.

Lemma isOverlapWarningFor_overlapWarning (i j : nat) (layer : Layer) (hb b : Bounds) :
  isOverlapWarningFor i (overlapWarning j layer hb b) = (i =? j)%nat.
Proof.
  unfold isOverlapWarningFor, overlapWarning, overlapWarningHead.
  rewrite !append_assoc, prefix_app.
  remember (natToString i) as ni. remember (natToString j) as nj.
  simpl. subst ni nj.
  rewrite prefix_index by reflexivity.
  simpl. rewrite ?prefix_nil. destruct (i =? j)%nat; reflexivity.
Qed.

Lemma isOverlapWarningFor_customWarning (i j : nat) (layer : Layer) :
  isOverlapWarningFor i (customWarning j layer) = false.
Proof.
  unfold isOverlapWarningFor, customWarning, overlapWarningHead.
  rewrite prefix_app.
  remember (natToString i) as ni. remember (natToString j) as nj.
  simpl. subst ni nj.
  rewrite prefix_index by reflexivity.
  simpl. rewrite ?prefix_nil. destruct (i =? j)%nat; reflexivity.
Qed.

Lemma mentionsLayer_overlapWarning (i j : nat) (layer : Layer) (hb b : Bounds) :
  mentionsLayer i (overlapWarning j layer hb b) = (i =? j)%nat.
Proof.
  unfold mentionsLayer, overlapWarning, overlapWarningHead.
  rewrite !append_assoc, prefix_app.
  remember (natToString i) as ni. remember (natToString j) as nj.
  simpl. subst ni nj.
  rewrite prefix_index by reflexivity.
  simpl. rewrite ?prefix_nil. destruct (i =? j)%nat; reflexivity.
Qed.

Lemma mentionsLayer_customWarning (i j : nat) (layer : Layer) :
  mentionsLayer i (customWarning j layer) = (i =? j)%nat.
Proof.
  unfold mentionsLayer, customWarning.
  rewrite prefix_app.
  remember (natToString i) as ni. remember (natToString j) as nj.
  simpl. subst ni nj.
  rewrite prefix_index by reflexivity.
  simpl. rewrite ?prefix_nil. destruct (i =? j)%nat; reflexivity.
Qed.

Section LayerWarnings.

Variables (w : Window) (heroBounds : Bounds).

Lemma typeIs_image_not_custom (t : option string) :
  typeIs "image" t = true -> typeIs "custom" t = false.
Proof.
  destruct t as [s|]; simpl; [|discriminate].
  intro H. apply String.eqb_eq in H. subst s. reflexivity.
Qed.

Lemma count_overlap_layerWarnings (i j : nat) (layer : Layer) :
  count (isOverlapWarningFor i) (layerWarnings w heroBounds layer j)
  = if (i =? j)%nat && overlapping w heroBounds layer then 1%nat else 0%nat.
Proof.
  unfold layerWarnings, overlapping. rewrite count_app.
  assert (Hc : count (isOverlapWarningFor i)
                 (if typeIs "custom" (type layer) then [customWarning j layer] else []) = 0%nat).
  { destruct (typeIs "custom" (type layer)); [|reflexivity].
    unfold count. simpl. rewrite isOverlapWarningFor_customWarning. reflexivity. }
  rewrite Hc, Nat.add_0_r.
  destruct (typeIs "image" (type layer)); simpl; [|rewrite andb_false_r; reflexivity].
  destruct (position layer) as [pos|]; [|rewrite andb_false_r; reflexivity].
  destruct (calculateImageBounds w pos (size layer)) as [b|]; [|rewrite andb_false_r; reflexivity].
  destruct (boxesOverlap heroBounds b); [|rewrite andb_false_r; reflexivity].
  unfold count. simpl. rewrite isOverlapWarningFor_overlapWarning, andb_true_r.
  destruct (i =? j)%nat; reflexivity.
Qed.

Lemma count_mentions_layerWarnings (i j : nat) (layer : Layer) :
  count (mentionsLayer i) (layerWarnings w heroBounds layer j)
  = if (i =? j)%nat
    then ((if overlapping w heroBounds layer then 1 else 0)
          + (if typeIs "custom" (type layer) then 1 else 0))%nat
    else 0%nat.
Proof.
  unfold layerWarnings, overlapping. rewrite count_app.
  assert (Hc : count (mentionsLayer i)
                 (if typeIs "custom" (type layer) then [customWarning j layer] else [])
               = if (i =? j)%nat then (if typeIs "custom" (type layer) then 1 else 0)%nat
                 else 0%nat).
  { destruct (typeIs "custom" (type layer)).
    - unfold count. simpl. rewrite mentionsLayer_customWarning.
      destruct (i =? j)%nat; reflexivity.
    - destruct (i =? j)%nat; reflexivity. }
  rewrite Hc.
  destruct (typeIs "image" (type layer)); simpl.
  2:{ destruct (i =? j)%nat; reflexivity. }
  destruct (position layer) as [pos|].
  2:{ destruct (i =? j)%nat; reflexivity. }
  destruct (calculateImageBounds w pos (size layer)) as [b|].
  2:{ destruct (i =? j)%nat; reflexivity. }
  destruct (boxesOverlap heroBounds b).
  2:{ destruct (i =? j)%nat; reflexivity. }
  unfold count. simpl. rewrite mentionsLayer_overlapWarning.
  destruct (i =? j)%nat; reflexivity.
Qed.

Lemma forEach_checkLayer (ls : list Layer) :
  forEach (checkLayer w heroBounds) ls []
  = List.concat (imapFrom 0 (layerWarnings w heroBounds) ls).
Proof.
  unfold forEach.
  rewrite (forEachFrom_pushes (checkLayer w heroBounds) (layerWarnings w heroBounds)).
  - reflexivity.
  - intros. apply checkLayer_pushes.
Qed.

Lemma overlapping_iff (layer : Layer) :
  overlapping w heroBounds layer = true <->
  typeIs "image" (type layer) = true
  /\ exists pos b,
       position layer = Some pos /\ resolvable pos = true
       /\ calculateImageBounds w pos (size layer) = Some b
       /\ boxesOverlap heroBounds b = true.
Proof.
  unfold overlapping. rewrite andb_true_iff. split.
  - intros [Ht H]. split; [exact Ht|].
    destruct (position layer) as [pos|]; [|discriminate].
    destruct (calculateImageBounds w pos (size layer)) as [b|] eqn:Eb; [|discriminate].
    exists pos, b. repeat split; try assumption.
    destruct (resolvable pos) eqn:Er; [reflexivity|].
    apply (calculateImageBounds_none w pos (size layer)) in Er. congruence.
  - intros [Ht (pos & b & Hp & _ & Hb & Ho)]. split; [exact Ht|].
    rewrite Hp, Hb. exact Ho.
Qed.

End LayerWarnings.

(** A section with a hero text and a layers array is always answered. *)
Lemma validateHeroOverlap_total (w : Window) (section : Section) (h : HeroConfig) (txt : string) (ls : list Layer) :
  hero section = Some h -> text h = Some txt -> layers section = Some ls ->
  exists r, validateHeroOverlap w section = Some r.
Proof.
  intros Hh Ht Hl. unfold validateHeroOverlap, calculateHeroBounds.
  rewrite Hh, Ht, Hl. eexists. reflexivity.
Qed.

(** C10.  [validateHeroOverlap] emits no overlap warning for an image
    layer whose box cannot be resolved: when the position declares no
    vertical edge (neither top nor bottom) or no horizontal edge (neither
    left nor right), [calculateImageBounds] returns null and no warning
    at all mentions the layer; an overlap warning for a layer is emitted
    (once) if and only if the layer is an image with a position that
    resolves on both axes and whose derived box intersects the hero box. *)
Theorem validateHeroOverlap_overlap_warning (w : Window) (section : Section) (r : OverlapResult) :
  validateHeroOverlap w section = Some r ->
  exists h heroBounds ls,
    hero section = Some h
    /\ calculateHeroBounds w h = Some heroBounds
    /\ layers section = Some ls
    /\ forall idx layer,
         nth_error ls idx = Some layer ->
         (forall pos, position layer = Some pos ->
            (calculateImageBounds w pos (size layer) = None <-> resolvable pos = false))
         /\ (typeIs "image" (type layer) = true ->
             (forall pos, position layer = Some pos -> resolvable pos = false) ->
             count (mentionsLayer idx) (warnings r) = 0%nat)
         /\ (existsb (isOverlapWarningFor idx) (warnings r) = true <->
             typeIs "image" (type layer) = true
             /\ exists pos b,
                  position layer = Some pos /\ resolvable pos = true
                  /\ calculateImageBounds w pos (size layer) = Some b
                  /\ boxesOverlap heroBounds b = true)
         /\ (count (isOverlapWarningFor idx) (warnings r) <= 1)%nat.
Proof.
  unfold validateHeroOverlap. intro Hr.
  destruct (hero section) as [h|]; [|discriminate].
  destruct (calculateHeroBounds w h) as [hb|] eqn:Ehb; [|discriminate].
  destruct (layers section) as [ls|]; [|discriminate].
  injection Hr as <-. simpl.
  exists h, hb, ls.
  split; [reflexivity|]. split; [exact Ehb|]. split; [reflexivity|].
  intros idx layer H.
  split; [intros pos _; apply calculateImageBounds_none|].
  split; [|split; [split|]].
  - intros Himg Hun. rewrite forEach_checkLayer.
    rewrite (count_at (mentionsLayer idx) (layerWarnings w hb) ls 0 idx layer H).
    + simpl. rewrite count_mentions_layerWarnings, Nat.eqb_refl.
      rewrite (typeIs_image_not_custom _ Himg).
      destruct (overlapping w hb layer) eqn:Eo; [|reflexivity].
      apply overlapping_iff in Eo. destruct Eo as [_ (pos & b & Hp & Hres & _)].
      rewrite (Hun pos Hp) in Hres. discriminate.
    + intros j y Hj. rewrite count_mentions_layerWarnings.
      destruct (Nat.eqb_spec idx j); [simpl in Hj; congruence | reflexivity].
  - rewrite forEach_checkLayer, count_pos_existsb.
    rewrite (count_at (isOverlapWarningFor idx) (layerWarnings w hb) ls 0 idx layer H).
    + simpl. rewrite count_overlap_layerWarnings, Nat.eqb_refl. simpl.
      intro Hpos. apply overlapping_iff.
      destruct (overlapping w hb layer); [reflexivity | lia].
    + intros j y Hj. rewrite count_overlap_layerWarnings.
      destruct (Nat.eqb_spec idx j); [simpl in Hj; congruence | reflexivity].
  - rewrite forEach_checkLayer, count_pos_existsb.
    rewrite (count_at (isOverlapWarningFor idx) (layerWarnings w hb) ls 0 idx layer H).
    + simpl. rewrite count_overlap_layerWarnings, Nat.eqb_refl. simpl.
      intro Ho. apply overlapping_iff in Ho. rewrite Ho. lia.
    + intros j y Hj. rewrite count_overlap_layerWarnings.
      destruct (Nat.eqb_spec idx j); [simpl in Hj; congruence | reflexivity].
  - rewrite forEach_checkLayer.
    rewrite (count_at (isOverlapWarningFor idx) (layerWarnings w hb) ls 0 idx layer H).
    + simpl. rewrite count_overlap_layerWarnings.
      destruct (_ && _); lia.
    + intros j y Hj. rewrite count_overlap_layerWarnings.
      destruct (Nat.eqb_spec idx j); [simpl in Hj; congruence | reflexivity].
Qed.

Lemma validateHeroOverlap_overlap_warning_witness :
  let w := mkWindow 1920 1080 in
  let corner :=
    mkLayer (Some "image") (Some "anchor.png") None (Some 10%Z)
            (Some (mkPosition (Some "5%") None None (Some "5%")))
            (Some (mkSize (Some "100px") (Some "100px"))) in
  let section :=
    mkSection (Some "section-00") (Some (mkHero (Some "Hello") (Some "center") None))
              (Some [corner]) None in
  validateHeroOverlap w section = Some (mkOverlapResult true [])
  /\ exists h heroBounds ls,
       hero section = Some h
       /\ calculateHeroBounds w h = Some heroBounds
       /\ layers section = Some ls.
Proof.
  intros w corner section.
  assert (Hr : validateHeroOverlap w section = Some (mkOverlapResult true []))
    by (vm_compute; reflexivity).
  split; [exact Hr|].
  destruct (validateHeroOverlap_overlap_warning w section _ Hr)
    as (h & hb & ls & Hh & Hb & Hl & _).
  exists h, hb, ls. repeat split; assumption.
Defined.

End ValidatorFacts.

(** ** Schema validator *)

Module SchemaFacts.
Import Schema StringFacts ArrayFacts.

Lemma validateLayer_pushes (pre : string) (layer : Layer) (layerIdx : nat) (acc : list string) :
  validateLayer pre layer layerIdx acc = (acc ++ layerErrors pre layer layerIdx)%list.
Proof.
  unfold validateLayer, layerErrors, push.
  destruct (zExceeds (z layer));
    destruct (negb (includesType (type layer)));
    destruct (typeIs "image" (type layer) && negb (truthyStr (src layer)));
    destruct (typeIs "custom" (type layer) && negb (truthyStr (renderer layer)));
    simpl; rewrite <- ?app_assoc, ?app_nil_r; reflexivity.
Qed.

Lemma validateSection_pushes (section : Section) (idx : nat) (acc : list string) :
  validateSection section idx acc = (acc ++ sectionErrors section idx)%list.
Proof.
  unfold validateSection, sectionErrors, sectionHeaderErrors, push.
  destruct (layers section) as [ls|].
  - unfold forEach.
    rewrite (forEachFrom_pushes (validateLayer (sectionPrefix idx))
                                (layerErrors (sectionPrefix idx)))
      by (intros; apply validateLayer_pushes).
    destruct (negb (truthyStr (id section)));
      destruct (hero section) as [h|]; try destruct (truthyStr (text h));
      simpl; rewrite <- ?app_assoc, ?app_nil_r; reflexivity.
  - destruct (negb (truthyStr (id section)));
      destruct (hero section) as [h|]; try destruct (truthyStr (text h));
      simpl; rewrite <- ?app_assoc, ?app_nil_r; reflexivity.
Qed.

Lemma validateSchema_errors (schema : SectionSchema) (secs : list Section) :
  sections schema = Some secs ->
  errors (validateSchema schema) = List.concat (imapFrom 0 sectionErrors secs)
  /\ valid (validateSchema schema)
     = (List.length (errors (validateSchema schema)) =? 0)%nat.
Proof.
  intro H. unfold validateSchema. rewrite H. simpl. split; [|reflexivity].
  unfold forEach.
  rewrite (forEachFrom_pushes validateSection sectionErrors)
    by (intros; apply validateSection_pushes).
  reflexivity.
Qed.

Section Heads.

Variables ni nj ni' nj' : string.
Hypothesis digits_i : allDigits ni = true.
Hypothesis digits_j : allDigits nj = true.
Hypothesis digits_i' : allDigits ni' = true.
Hypothesis digits_j' : allDigits nj' = true.

Let head : string := "Section " ++ ni ++ ", layer " ++ nj ++ ": z-index ".

Lemma head_vs_depth (rest : string) :
  String.prefix head ("Section " ++ ni' ++ ", layer " ++ nj' ++ ": z-index " ++ rest)
  = (ni =? ni') && (nj =? nj').
Proof.
  unfold head. rewrite prefix_app.
  change (", layer " ++ nj ++ ": z-index ")
    with (String "," (" layer " ++ nj ++ String ":" " z-index ")).
  change (", layer " ++ nj' ++ ": z-index " ++ rest)
    with (String "," (" layer " ++ nj' ++ String ":" (" z-index " ++ rest))).
  rewrite prefix_digits by (assumption || reflexivity).
  rewrite Ascii.eqb_refl, prefix_app. simpl andb.
  rewrite prefix_digits by (assumption || reflexivity).
  simpl. rewrite ?prefix_nil, ?andb_true_r. reflexivity.
Qed.

Lemma head_vs_section (tail : string) :
  String.prefix head ("Section " ++ ni' ++ String ":" tail) = false.
Proof.
  unfold head. rewrite prefix_app.
  change (", layer " ++ nj ++ ": z-index ")
    with (String "," (" layer " ++ nj ++ String ":" " z-index ")).
  rewrite prefix_digits by (assumption || reflexivity).
  simpl. apply andb_false_r.
Qed.

Lemma head_vs_layer (c : ascii) (tail : string) :
  (c =? "z")%char = false ->
  String.prefix head ("Section " ++ ni' ++ ", layer " ++ nj' ++ ": " ++ String c tail) = false.
Proof.
  intro Hc. unfold head. rewrite prefix_app.
  change (", layer " ++ nj ++ ": z-index ")
    with (String "," (" layer " ++ nj ++ String ":" (String " " (String "z" "-index ")))).
  change (", layer " ++ nj' ++ ": " ++ String c tail)
    with (String "," (" layer " ++ nj' ++ String ":" (String " " (String c tail)))).
  rewrite prefix_digits by (assumption || reflexivity).
  rewrite Ascii.eqb_refl, prefix_app. simpl andb.
  rewrite prefix_digits by (assumption || reflexivity).
  rewrite !prefix_cons, Ascii.eqb_refl, (Ascii.eqb_sym "z" c), Hc.
  simpl. rewrite !andb_false_r. reflexivity.
Qed.

Let layerHead : string := "Section " ++ ni ++ ", layer " ++ nj ++ ": ".

Lemma layerHead_vs_layer (rest : string) :
  String.prefix layerHead ("Section " ++ ni' ++ ", layer " ++ nj' ++ ": " ++ rest)
  = (ni =? ni') && (nj =? nj').
Proof.
  unfold layerHead. rewrite prefix_app.
  change (", layer " ++ nj ++ ": ")
    with (String "," (" layer " ++ nj ++ String ":" " ")).
  change (", layer " ++ nj' ++ ": " ++ rest)
    with (String "," (" layer " ++ nj' ++ String ":" (" " ++ rest))).
  rewrite prefix_digits by (assumption || reflexivity).
  rewrite Ascii.eqb_refl, prefix_app. simpl andb.
  rewrite prefix_digits by (assumption || reflexivity).
  simpl. rewrite ?prefix_nil, ?andb_true_r. reflexivity.
Qed.

Lemma layerHead_vs_section (tail : string) :
  String.prefix layerHead ("Section " ++ ni' ++ String ":" tail) = false.
Proof.
  unfold layerHead. rewrite prefix_app.
  change (", layer " ++ nj ++ ": ")
    with (String "," (" layer " ++ nj ++ String ":" " ")).
  rewrite prefix_digits by (assumption || reflexivity).
  simpl. apply andb_false_r.
Qed.

End Heads.

Section DepthErrors.

Variables i j : nat.

Let p := isDepthErrorFor i j.

Lemma count_depth_layerErrors (i' j' : nat) (layer : Layer) :
  count p (layerErrors (sectionPrefix i') layer j')
  = if (i =? i')%nat && (j =? j')%nat && zExceeds (z layer) then 1%nat else 0%nat.
Proof.
  pose proof (natToString_digits i) as Di. pose proof (natToString_digits j) as Dj.
  pose proof (natToString_digits i') as Di'. pose proof (natToString_digits j') as Dj'.
  unfold layerErrors. cbv zeta. rewrite !count_app.
  assert (H1 : p (depthErrorHead (sectionPrefix i') j' ++ zFieldToString (z layer)
                  ++ " exceeds max of 50 (hero zone protection)")
               = (i =? i')%nat && (j =? j')%nat).
  { unfold p, isDepthErrorFor, depthErrorHead, sectionPrefix.
    rewrite !append_assoc.
    rewrite (head_vs_depth _ _ _ _ Di Dj Di' Dj'), !natToString_eqb. reflexivity. }
  assert (H2 : forall (c : ascii) (tail : string), (c =? "z")%char = false ->
               p (sectionPrefix i' ++ ", layer " ++ natToString j' ++ ": " ++ String c tail) = false).
  { intros c tail Hc. unfold p, isDepthErrorFor, depthErrorHead, sectionPrefix.
    rewrite !append_assoc.
    apply (head_vs_layer _ _ _ _ Di Dj Di' Dj' c tail Hc). }
  assert (E2 : count p
     (if negb (includesType (type layer))
      then [sectionPrefix i' ++ ", layer " ++ natToString j' ++ ": invalid layer type "
            ++ dquote ++ strToString (type layer) ++ dquote]
      else []) = 0%nat).
  { destruct (negb (includesType (type layer))); [|reflexivity].
    rewrite count_single.
    change (": invalid layer type " ++ dquote ++ strToString (type layer) ++ dquote)
      with (": " ++ String "i" ("nvalid layer type " ++ dquote ++ strToString (type layer) ++ dquote)).
    rewrite H2 by reflexivity. reflexivity. }
  assert (E3 : count p
     (if typeIs "image" (type layer) && negb (truthyStr (src layer))
      then [sectionPrefix i' ++ ", layer " ++ natToString j' ++ ": image layer missing src"]
      else []) = 0%nat).
  { destruct (typeIs "image" (type layer) && negb (truthyStr (src layer)));
      [|reflexivity].
    rewrite count_single.
    change ": image layer missing src" with (": " ++ String "i" "mage layer missing src").
    rewrite H2 by reflexivity. reflexivity. }
  assert (E4 : count p
     (if typeIs "custom" (type layer) && negb (truthyStr (renderer layer))
      then [sectionPrefix i' ++ ", layer " ++ natToString j' ++ ": custom layer missing renderer name"]
      else []) = 0%nat).
  { destruct (typeIs "custom" (type layer) && negb (truthyStr (renderer layer)));
      [|reflexivity].
    rewrite count_single.
    change ": custom layer missing renderer name"
      with (": " ++ String "c" "ustom layer missing renderer name").
    rewrite H2 by reflexivity. reflexivity. }
  rewrite E2, E3, E4, !Nat.add_0_r.
  destruct (zExceeds (z layer)).
  - rewrite count_single, H1, andb_true_r.
    destruct ((i =? i')%nat && (j =? j')%nat); reflexivity.
  - rewrite andb_false_r. reflexivity.
Qed.

Lemma count_depth_sectionHeaderErrors (i' : nat) (section : Section) :
  count p (sectionHeaderErrors section i') = 0%nat.
Proof.
  pose proof (natToString_digits i) as Di. pose proof (natToString_digits j) as Dj.
  pose proof (natToString_digits i') as Di'.
  assert (H : forall tail, p (sectionPrefix i' ++ String ":" tail) = false).
  { intro tail. unfold p, isDepthErrorFor, depthErrorHead, sectionPrefix.
    rewrite !append_assoc.
    apply head_vs_section; assumption. }
  unfold sectionHeaderErrors. cbv zeta. rewrite !count_app.
  destruct (negb (truthyStr (id section)));
    destruct (hero section) as [h|]; try destruct (truthyStr (text h));
    destruct (layers section);
    rewrite ?count_single;
    repeat match goal with
           | |- context [p (sectionPrefix i' ++ ?t)] =>
               change (p (sectionPrefix i' ++ t))
                 with (p (sectionPrefix i' ++ String ":" (dropChars 1 t)));
               rewrite H
           end;
    reflexivity.
Qed.

End DepthErrors.

Section LayerErrors.

Variables i j : nat.

Let q := isLayerErrorFor i j.

Lemma isLayerErrorFor_layer (i' j' : nat) (rest : string) :
  q (sectionPrefix i' ++ ", layer " ++ natToString j' ++ ": " ++ rest)
  = (i =? i')%nat && (j =? j')%nat.
Proof.
  unfold q, isLayerErrorFor, sectionPrefix. rewrite !append_assoc.
  rewrite layerHead_vs_layer by apply natToString_digits.
  rewrite !natToString_eqb. reflexivity.
Qed.

Lemma count_layer_layerErrors (i' j' : nat) (layer : Layer) :
  count q (layerErrors (sectionPrefix i') layer j')
  = if (i =? i')%nat && (j =? j')%nat
    then List.length (layerErrors (sectionPrefix i') layer j')
    else 0%nat.
Proof.
  unfold layerErrors. cbv zeta. rewrite !count_app, !length_app.
  unfold depthErrorHead. rewrite !append_assoc.
  change (": z-index " ++ zFieldToString (z layer) ++ " exceeds max of 50 (hero zone protection)")
    with (": " ++ "z-index " ++ zFieldToString (z layer)
          ++ " exceeds max of 50 (hero zone protection)").
  change (": invalid layer type " ++ dquote ++ strToString (type layer) ++ dquote)
    with (": " ++ "invalid layer type " ++ dquote ++ strToString (type layer) ++ dquote).
  change ": image layer missing src" with (": " ++ "image layer missing src").
  change ": custom layer missing renderer name"
    with (": " ++ "custom layer missing renderer name").
  destruct (zExceeds (z layer));
    destruct (negb (includesType (type layer)));
    destruct (typeIs "image" (type layer) && negb (truthyStr (src layer)));
    destruct (typeIs "custom" (type layer) && negb (truthyStr (renderer layer)));
    rewrite ?count_single, ?isLayerErrorFor_layer;
    destruct ((i =? i')%nat && (j =? j')%nat); reflexivity.
Qed.

Lemma count_layer_sectionHeaderErrors (i' : nat) (section : Section) :
  count q (sectionHeaderErrors section i') = 0%nat.
Proof.
  assert (H : forall tail, q (sectionPrefix i' ++ String ":" tail) = false).
  { intro tail. unfold q, isLayerErrorFor, sectionPrefix.
    rewrite !append_assoc.
    apply layerHead_vs_section; apply natToString_digits. }
  unfold sectionHeaderErrors. cbv zeta. rewrite !count_app.
  destruct (negb (truthyStr (id section)));
    destruct (hero section) as [h|]; try destruct (truthyStr (text h));
    destruct (layers section);
    rewrite ?count_single;
    repeat match goal with
           | |- context [q (sectionPrefix i' ++ ?t)] =>
               change (q (sectionPrefix i' ++ t))
                 with (q (sectionPrefix i' ++ String ":" (dropChars 1 t)));
               rewrite H
           end;
    reflexivity.
Qed.

End LayerErrors.

(** The errors that name a layer are the errors pushed for that layer. *)
Lemma layer_error_count (schema : SectionSchema) (secs : list Section) (i : nat) (section : Section) (ls : list Layer) (j : nat) (layer : Layer) :
  sections schema = Some secs ->
  nth_error secs i = Some section ->
  layers section = Some ls ->
  nth_error ls j = Some layer ->
  count (isLayerErrorFor i j) (errors (validateSchema schema))
  = List.length (layerErrors (sectionPrefix i) layer j).
Proof.
  intros Hs Hi Hl Hj.
  destruct (validateSchema_errors schema secs Hs) as [-> _].
  rewrite (count_at (isLayerErrorFor i j) sectionErrors secs 0 i section Hi).
  - simpl. unfold sectionErrors.
    rewrite count_app, count_layer_sectionHeaderErrors, Hl.
    rewrite (count_at (isLayerErrorFor i j) (layerErrors (sectionPrefix i)) ls 0 j layer Hj).
    + simpl. rewrite count_layer_layerErrors, !Nat.eqb_refl. reflexivity.
    + intros j' y Hj'. rewrite count_layer_layerErrors.
      destruct (Nat.eqb_spec j j'); [simpl in Hj'; congruence|].
      rewrite andb_false_r. reflexivity.
  - intros i' s' Hi'. unfold sectionErrors.
    rewrite count_app, count_layer_sectionHeaderErrors.
    destruct (layers s') as [ls'|]; [|reflexivity].
    rewrite count_elsewhere; [reflexivity|].
    intros j' y _. rewrite count_layer_layerErrors.
    destruct (Nat.eqb_spec i i'); [simpl in Hi'; congruence | reflexivity].
Qed.


Lemma count_depth_sectionErrors_other (i j i' : nat) (section : Section) :
  i <> i' -> count (isDepthErrorFor i j) (sectionErrors section i') = 0%nat.
Proof.
  intro Hne. unfold sectionErrors.
  rewrite count_app, count_depth_sectionHeaderErrors.
  destruct (layers section) as [ls|]; [|reflexivity].
  rewrite count_elsewhere; [reflexivity|].
  intros j' y _. rewrite count_depth_layerErrors.
  destruct (Nat.eqb_spec i i'); [contradiction | reflexivity].
Qed.

Lemma count_depth_sectionErrors (i j : nat) (section : Section) (ls : list Layer) (layer : Layer) :
  layers section = Some ls -> nth_error ls j = Some layer ->
  count (isDepthErrorFor i j) (sectionErrors section i)
  = if zExceeds (z layer) then 1%nat else 0%nat.
Proof.
  intros Hl Hj. unfold sectionErrors.
  rewrite count_app, count_depth_sectionHeaderErrors, Hl.
  rewrite (count_at (isDepthErrorFor i j) (layerErrors (sectionPrefix i)) ls 0 j layer Hj).
  - simpl. rewrite count_depth_layerErrors, !Nat.eqb_refl. reflexivity.
  - intros j' y Hj'. rewrite count_depth_layerErrors.
    destruct (Nat.eqb_spec j j'); [simpl in Hj'; congruence|].
    rewrite andb_false_r. reflexivity.
Qed.

(** Every layer of a scene accounts for one depth-ceiling error when its
    [z] exceeds 50 and for none otherwise. *)
Lemma depth_error_count (schema : SectionSchema) (secs : list Section) (i : nat) (section : Section) (ls : list Layer) (j : nat) (layer : Layer) :
  sections schema = Some secs ->
  nth_error secs i = Some section ->
  layers section = Some ls ->
  nth_error ls j = Some layer ->
  count (isDepthErrorFor i j) (errors (validateSchema schema))
  = if zExceeds (z layer) then 1%nat else 0%nat.
Proof.
  intros Hs Hi Hl Hj.
  destruct (validateSchema_errors schema secs Hs) as [-> _].
  rewrite (count_at (isDepthErrorFor i j) sectionErrors secs 0 i section Hi).
  - simpl. apply (count_depth_sectionErrors i j section ls layer Hl Hj).
  - intros i' s' Hi'. apply count_depth_sectionErrors_other. simpl in Hi'. congruence.
Qed.





(** C9.  The depth-ceiling check fires only for a layer whose [z] is
    present and greater than 50: a layer of a scene gets a depth error if
    and only if it declares such a [z], so a layer that omits [z] never
    gets one; and there is a scene accepted with valid = true that
    contains a layer without any declared depth. *)
Theorem validateSchema_depth_needs_z :
  (forall (schema : SectionSchema) (secs : list Section) (i : nat) (section : Section)
          (ls : list Layer) (j : nat) (layer : Layer),
      sections schema = Some secs ->
      nth_error secs i = Some section ->
      layers section = Some ls ->
      nth_error ls j = Some layer ->
      (existsb (isDepthErrorFor i j) (errors (validateSchema schema)) = true
       <-> exists v, z layer = Some v /\ (50 < v)%Z)
      /\ (z layer = None ->
          count (isDepthErrorFor i j) (errors (validateSchema schema)) = 0%nat))
  /\ (exists (schema : SectionSchema) (secs : list Section) (section : Section)
             (ls : list Layer) (layer : Layer),
        sections schema = Some secs /\ In section secs
        /\ layers section = Some ls /\ In layer ls
        /\ z layer = None
        /\ validateSchema schema = {| valid := true; errors := [] |}).
Proof.
  split.
  - intros schema secs i section ls j layer Hs Hi Hl Hj.
    pose proof (depth_error_count schema secs i section ls j layer Hs Hi Hl Hj) as Hc.
    split.
    + rewrite count_pos_existsb, Hc. unfold zExceeds.
      destruct (z layer) as [v|].
      * destruct (Z.ltb_spec 50 v) as [H|H]; split.
        -- intros _. exists v. split; [reflexivity | exact H].
        -- intros _. lia.
        -- intro H'. lia.
        -- intros (v' & Hv' & Hlt). injection Hv' as <-. lia.
      * split; [intro H; lia | intros (v & Hv & _); discriminate].
    + intros Hz. rewrite Hc, Hz. reflexivity.
  - set (layer := mkLayer (Some "background") None None None None None).
    set (section := mkSection (Some "section-00") (Some (mkHero (Some "Hello") None None))
                              (Some [layer]) None).
    exists (mkSchema (Some [section])), [section], section, [layer], layer.
    repeat split; try reflexivity; left; reflexivity.
Qed.

Lemma validateSchema_depth_needs_z_witness :
  let layer := mkLayer (Some "image") (Some "anchor.png") None None None None in
  let section :=
    mkSection (Some "section-00") (Some (mkHero (Some "Hello") None None))
              (Some [layer]) None in
  let schema := mkSchema (Some [section]) in
  count (isDepthErrorFor 0 0) (errors (validateSchema schema)) = 0%nat.
Proof.
  intros layer section schema.
  exact (proj2 (proj1 validateSchema_depth_needs_z schema [section] 0%nat section
                  [layer] 0%nat layer eq_refl eq_refl eq_refl eq_refl) eq_refl).
Defined.

End SchemaFacts.

(** * Further properties of the code *)

(** ** Timing calculus, continued *)

Module TimingMore.
Import ScrollTiming.






End TimingMore.

(** ** Scroll visibility controller, continued *)

Module ControllerMore.
Import Schema Builder.

(** X3.  Whatever the two zones are, also when the fade zone is not
    beyond the hold zone, the opacity of a tick lies in [0, 1] and
    clamping changes nothing; the division by fadeZone - holdZone is only
    evaluated between the zones, where it is positive.  With a fade zone
    at or below the hold zone the section is fully opaque inside the hold
    zone and transparent outside. *)
Theorem sectionOpacity_never_inverted (windowHeight fadeZone : Q) (section : SectionContainer) (r : Rect) :
  let d := distanceOf windowHeight r in
  let hold := holdZoneOf windowHeight section in
  let fade := sectionFadeZoneOf windowHeight fadeZone section in
  let opacity := sectionOpacity windowHeight fadeZone section r in
  (0 <= opacity /\ opacity <= 1)
  /\ clampOpacity opacity == opacity
  /\ (fade <= hold -> (d < hold /\ opacity = 1) \/ (hold <= d /\ opacity = 0))
  /\ (opacity = 1 \/ opacity = 0 \/ (hold <= d /\ d < fade /\ 0 < fade - hold)).
Proof.
  intros d hold fade opacity.
  pose proof (ControllerFacts.sectionOpacity_range windowHeight fadeZone section r) as Hr.
  fold opacity in Hr.
  split; [exact Hr|]. split.
  { apply ControllerFacts.clampOpacity_id; apply Hr. }
  split.
  - intro Hinv. destruct (Qlt_le_dec d hold) as [H|H].
    + left. split; [exact H|].
      apply ControllerFacts.sectionOpacity_held. exact H.
    + right. split; [exact H|].
      apply ControllerFacts.sectionOpacity_hidden; [exact H|].
      unfold d, hold, fade in *. lra.
  - destruct (Qlt_le_dec d hold) as [H|H].
    + left. apply ControllerFacts.sectionOpacity_held. exact H.
    + destruct (Qlt_le_dec d fade) as [H'|H'].
      * right. right. unfold d, hold, fade in *. repeat split; try assumption. lra.
      * right. left. apply ControllerFacts.sectionOpacity_hidden; assumption.
Qed.

Lemma Qdiv_le_compat_r (a b c : Q) : 0 < c -> a <= b -> a / c <= b / c.
Proof.
  intros Hc Hab. unfold Qdiv. apply Qmult_le_compat_r; [exact Hab|].
  apply Qinv_le_0_compat. lra.
Qed.

(** X4.  A section never gets more opaque by being farther from the
    centre of the viewport: the opacity is non-increasing in the
    distance, whatever the zones. *)
Theorem sectionOpacity_monotone (windowHeight fadeZone : Q) (section : SectionContainer) (r1 r2 : Rect) :
  distanceOf windowHeight r1 <= distanceOf windowHeight r2 ->
  sectionOpacity windowHeight fadeZone section r2
  <= sectionOpacity windowHeight fadeZone section r1.
Proof.
  intro Hd.
  set (d1 := distanceOf windowHeight r1) in *.
  set (d2 := distanceOf windowHeight r2) in *.
  set (hold := holdZoneOf windowHeight section).
  set (fade := sectionFadeZoneOf windowHeight fadeZone section).
  pose proof (ControllerFacts.sectionOpacity_range windowHeight fadeZone section r1) as R1.
  pose proof (ControllerFacts.sectionOpacity_range windowHeight fadeZone section r2) as R2.
  destruct (Qlt_le_dec d2 hold) as [H2|H2].
  - rewrite (ControllerFacts.sectionOpacity_held windowHeight fadeZone section r2 H2).
    assert (H1 : d1 < hold) by lra.
    rewrite (ControllerFacts.sectionOpacity_held windowHeight fadeZone section r1 H1).
    apply Qle_refl.
  - destruct (Qlt_le_dec d2 fade) as [H2'|H2'].
    + rewrite (ControllerFacts.sectionOpacity_fading windowHeight fadeZone section r2 H2 H2').
      fold d2 hold fade.
      destruct (Qlt_le_dec d1 hold) as [H1|H1].
      * rewrite (ControllerFacts.sectionOpacity_held windowHeight fadeZone section r1 H1).
        destruct (ControllerFacts.fading_fraction_bounds windowHeight fadeZone section r2 H2 H2')
          as [Hf _].
        fold d2 hold fade in Hf. lra.
      * assert (H1' : d1 < fade) by lra.
        rewrite (ControllerFacts.sectionOpacity_fading windowHeight fadeZone section r1 H1 H1').
        fold d1 hold fade.
        assert (Hc : 0 < fade - hold) by lra.
        assert (Hn : d1 - hold <= d2 - hold) by lra.
        pose proof (Qdiv_le_compat_r _ _ _ Hc Hn) as Hq.
        set (q1 := (d1 - hold) / (fade - hold)) in *.
        set (q2 := (d2 - hold) / (fade - hold)) in *.
        clearbody q1 q2. lra.
    + rewrite (ControllerFacts.sectionOpacity_hidden windowHeight fadeZone section r2 H2 H2').
      apply R1.
Qed.

Lemma sectionOpacity_monotone_witness :
  sectionOpacity 1000 0.7 (mkContainer "s" "fullscreen-section" "s" "250vh") (mkRect 100 1100 1000)
  <= sectionOpacity 1000 0.7 (mkContainer "s" "fullscreen-section" "s" "250vh") (mkRect 0 1000 1000).
Proof.
  apply sectionOpacity_monotone. vm_compute. discriminate.
Defined.

(** *** Replaying a scroll position *)

Lemma updateVisual_again (opacity : Q) (idx : nat) (vis : Element) :
  updateVisual opacity idx
    (setDisplay "block" (fst (updateVisual opacity idx (setDisplay "block" vis))))
  = (fst (updateVisual opacity idx (setDisplay "block" vis)), []).
Proof.
  unfold updateVisual. simpl classList. simpl animationTriggered.
  destruct (contains "challenge-cards" (classList vis)) eqn:Ec.
  2:{ simpl. rewrite Ec. reflexivity. }
  pose proof (ControllerFacts.contains_classAdd _ "section-active" _ Ec) as Hadd.
  assert (Hrem : contains "challenge-cards"
                   (classRemove "cards-exit" (classRemove "section-active" (classList vis)))
                 = true).
  { rewrite !ControllerFacts.contains_classRemove_other by reflexivity. exact Ec. }
  pose proof (ControllerFacts.full_not_half opacity) as Hfull.
  destruct (Qle_bool 1 opacity) eqn:Efull;
    destruct (Qltb opacity 0.5) eqn:Ehalf;
    try (specialize (Hfull eq_refl); discriminate);
    destruct (truthy (animationTriggered vis)) eqn:Et;
    repeat (progress (simpl; rewrite ?Ec, ?Hadd, ?Hrem, ?Efull, ?Ehalf, ?Et));
    reflexivity.
Qed.

Lemma updateVisualsFrom_again (opacity : Q) (visuals : list Element) :
  forall idx,
    updateVisualsFrom opacity idx
      (map (fun el => setDisplay "block" el)
           (fst (updateVisualsFrom opacity idx (map (fun el => setDisplay "block" el) visuals))))
    = (fst (updateVisualsFrom opacity idx (map (fun el => setDisplay "block" el) visuals)), []).
Proof.
  induction visuals as [|v vs IH]; intro idx; [reflexivity|].
  simpl map at 2. simpl updateVisualsFrom at 2. simpl updateVisualsFrom at 3.
  destruct (updateVisual opacity idx (setDisplay "block" v)) as [v' ts] eqn:Ev.
  specialize (IH (S idx)).
  destruct (updateVisualsFrom opacity (S idx) (map (fun el => setDisplay "block" el) vs))
    as [vs' ts'] eqn:Evs.
  simpl in *.
  pose proof (updateVisual_again opacity idx v) as Hv. rewrite Ev in Hv. simpl in Hv.
  rewrite Hv, IH. reflexivity.
Qed.

Lemma updateSection_rect (windowHeight fadeZone : Q) (sv : SectionView) :
  rect (fst (updateSection windowHeight fadeZone sv)) = rect sv.
Proof.
  unfold updateSection. destruct (outOfView _ _); [reflexivity|].
  destruct (updateVisualsFrom _ 0 _). reflexivity.
Qed.

(** A second tick at the same scroll position changes nothing in the
    section and registers no timeout. *)
Lemma updateSection_again (windowHeight fadeZone : Q) (sv : SectionView) :
  updateSection windowHeight fadeZone (fst (updateSection windowHeight fadeZone sv))
  = (fst (updateSection windowHeight fadeZone sv), []).
Proof.
  unfold updateSection at 2 3.
  destruct (outOfView windowHeight (rect sv)) eqn:Eo.
  - unfold updateSection. simpl. rewrite Eo. simpl. f_equal. f_equal.
    + destruct (sectionBg sv); reflexivity.
    + destruct (sectionContent sv); reflexivity.
    + rewrite map_map. reflexivity.
    + rewrite map_map. reflexivity.
  - set (opacity := sectionOpacity windowHeight fadeZone (container sv) (rect sv)).
    pose proof (updateVisualsFrom_again opacity (sectionVisuals sv) 0) as Hv.
    destruct (updateVisualsFrom opacity 0 (map (fun el => setDisplay "block" el) (sectionVisuals sv)))
      as [vs ts] eqn:Evs.
    unfold updateSection. simpl. rewrite Eo. fold opacity.
    simpl in Hv. rewrite Hv. f_equal. f_equal.
    + destruct (sectionBg sv); reflexivity.
    + destruct (sectionContent sv); reflexivity.
    + rewrite map_map. reflexivity.
Qed.

Lemma updateSectionsFrom_again (windowHeight fadeZone : Q) (sections : list SectionView) :
  forall index,
    updateSectionsFrom windowHeight fadeZone index
      (fst (updateSectionsFrom windowHeight fadeZone index sections))
    = (fst (updateSectionsFrom windowHeight fadeZone index sections), []).
Proof.
  induction sections as [|sv rest IH]; intro index; [reflexivity|].
  simpl.
  pose proof (updateSection_again windowHeight fadeZone sv) as Hs.
  destruct (updateSection windowHeight fadeZone sv) as [sv' ts] eqn:Es.
  specialize (IH (S index)).
  destruct (updateSectionsFrom windowHeight fadeZone (S index) rest) as [rest' ts'] eqn:Er.
  simpl in *. rewrite Hs, IH. reflexivity.
Qed.

Lemma updateSectionsFrom_rects (windowHeight fadeZone : Q) (sections : list SectionView) :
  forall index,
    map rect (fst (updateSectionsFrom windowHeight fadeZone index sections))
    = map rect sections.
Proof.
  induction sections as [|sv rest IH]; intro index; [reflexivity|].
  simpl.
  pose proof (updateSection_rect windowHeight fadeZone sv) as Hs.
  destruct (updateSection windowHeight fadeZone sv) as [sv' ts].
  specialize (IH (S index)).
  destruct (updateSectionsFrom windowHeight fadeZone (S index) rest) as [rest' ts'].
  simpl in *. rewrite Hs, IH. reflexivity.
Qed.

Lemma lastRect_by_rects (l l' : list SectionView) :
  map rect l' = map rect l ->
  match l' with
  | [] => None
  | _ => option_map rect (nth_error l' (List.length l' - 1))
  end
  = match l with
    | [] => None
    | _ => option_map rect (nth_error l (List.length l - 1))
    end.
Proof.
  intro H.
  assert (Hlen : List.length l' = List.length l).
  { rewrite <- (length_map rect l'), H. apply length_map. }
  assert (Hnth : forall n, option_map rect (nth_error l' n) = option_map rect (nth_error l n)).
  { intro n. rewrite <- !nth_error_map, H. reflexivity. }
  destruct l' as [|x' l'], l as [|x l]; try discriminate; [reflexivity|].
  rewrite Hlen. apply Hnth.
Qed.

Lemma updateComparison_again (windowHeight : Q) (lastRect : option Rect) (cc : option ComparisonContainer) :
  updateComparison windowHeight lastRect (updateComparison windowHeight lastRect cc)
  = updateComparison windowHeight lastRect cc.
Proof.
  unfold updateComparison.
  destruct cc as [c|]; [|reflexivity].
  destruct lastRect as [r|]; [|reflexivity].
  destruct (Qltb (windowHeight * 0.5) (rect_bottom r)); reflexivity.
Qed.

(** X5.  The handler is idempotent: running [updateSectionOpacity] again
    at the same scroll position leaves every section, every element and
    the comparison container as the first run left them and registers no
    timeout; the sticky flag of a card container is the only state a tick
    reads back, and the first run has already settled it. *)
Theorem updateSectionOpacity_idempotent (windowHeight fadeZone : Q) (doc : Document) :
  updateSectionOpacity windowHeight fadeZone
    (fst (updateSectionOpacity windowHeight fadeZone doc))
  = (fst (updateSectionOpacity windowHeight fadeZone doc), []).
Proof.
  unfold updateSectionOpacity.
  pose proof (updateSectionsFrom_again windowHeight fadeZone (doc_sections doc) 0) as Ha.
  pose proof (updateSectionsFrom_rects windowHeight fadeZone (doc_sections doc) 0) as Hr.
  destruct (updateSectionsFrom windowHeight fadeZone 0 (doc_sections doc)) as [svs ts] eqn:E.
  simpl in *. rewrite Ha.
  rewrite (lastRect_by_rects (doc_sections doc) svs Hr).
  rewrite updateComparison_again. reflexivity.
Qed.

(** *** Section heights and the out-of-view cut *)




(** *** The comparison container *)

(** X7.  For a viewport of positive height, the comparison container gets
    an opacity in [0, 1]: 0 as long as the bottom edge of the last section
    is at or below the middle of the viewport, 1 once that edge is within
    the top fifth, and it accepts pointer events exactly when that edge
    is above 35% of the viewport height. *)
Theorem comparison_fade_in (windowHeight : Q) (lastRect : Rect) (cc : ComparisonContainer) :
  0 < windowHeight ->
  exists (o : Q) (pointerEvents : string),
    updateComparison windowHeight (Some lastRect) (Some cc)
      = Some (mkComparison (Some o) pointerEvents)
    /\ (0 <= o /\ o <= 1)
    /\ (windowHeight * 0.5 <= rect_bottom lastRect -> o == 0)
    /\ (rect_bottom lastRect <= windowHeight * 0.2 -> o == 1)
    /\ (pointerEvents = "auto" <-> rect_bottom lastRect < windowHeight * 0.35)
    /\ (pointerEvents = "auto" \/ pointerEvents = "none").
Proof.
  intro Hw. unfold updateComparison.
  set (b := rect_bottom lastRect).
  destruct (Qltb (windowHeight * 0.5) b) eqn:E.
  - apply Qltb_lt in E.
    exists 0, "none". split; [reflexivity|].
    split; [split; discriminate|].
    split; [intros _; reflexivity|].
    split; [intro H; lra|].
    split; [split; [discriminate | intro H; lra] | right; reflexivity].
  - apply Qltb_ge in E.
    set (c := windowHeight * 0.3).
    set (x := (windowHeight * 0.5 - b) / c).
    assert (Hc : 0 < c) by (unfold c; lra).
    assert (Hx : x * c == windowHeight * 0.5 - b).
    { unfold x. field. intro H. lra. }
    assert (Hx0 : 0 <= x).
    { unfold x. apply Qle_shift_div_l; [exact Hc | lra]. }
    exists (Qmin 1 x), (if Qltb 0.5 (Qmin 1 x) then "auto" else "none").
    split; [reflexivity|].
    split.
    { split; [apply Q.min_glb; [discriminate | exact Hx0] | apply Q.le_min_l]. }
    split.
    { intro H. apply Qle_antisym.
      - eapply Qle_trans; [apply Q.le_min_r|].
        unfold x. apply Qle_shift_div_r; [exact Hc | lra].
      - apply Q.min_glb; [discriminate | exact Hx0]. }
    split.
    { intro H. apply Q.min_l.
      unfold x. apply Qle_shift_div_l; [exact Hc | unfold c; lra]. }
    assert (Hhalf : 0.5 < x <-> b < windowHeight * 0.35).
    { rewrite <- (Qmult_lt_r 0.5 x c Hc). rewrite Hx. unfold c. split; intro H; lra. }
    split.
    + destruct (Qltb 0.5 (Qmin 1 x)) eqn:Eh.
      * apply Qltb_lt in Eh. split; [intros _ | reflexivity].
        apply Hhalf. eapply Qlt_le_trans; [exact Eh | apply Q.le_min_r].
      * apply Qltb_ge in Eh. split; [discriminate|].
        intro H. apply Hhalf in H.
        assert (0.5 < Qmin 1 x) by (apply Q.min_glb_lt; [reflexivity | exact H]).
        lra.
    + destruct (Qltb 0.5 (Qmin 1 x)); [left | right]; reflexivity.
Qed.

Lemma comparison_fade_in_witness :
  exists (o : Q) (pointerEvents : string),
    updateComparison 1000 (Some (mkRect (-3000) 350 3350)) (Some (mkComparison None ""))
      = Some (mkComparison (Some o) pointerEvents)
    /\ (0 <= o /\ o <= 1).
Proof.
  assert (Hw : 0 < 1000) by reflexivity.
  destruct (comparison_fade_in 1000 (mkRect (-3000) 350 3350) (mkComparison None "") Hw)
    as (o & pe & H1 & H2 & _).
  exists o, pe. split; assumption.
Defined.

(** *** What the controller leaves alone *)

Lemma tickVisual_card_opacity (windowHeight fadeZone : Q) (section : SectionContainer) (r : Rect) (idx : nat) (vis : Element) :
  contains "challenge-cards" (classList vis) = true ->
  style_opacity (fst (tickVisual windowHeight fadeZone section r idx vis)) = style_opacity vis.
Proof.
  intro Hc. unfold tickVisual.
  destruct (outOfView windowHeight r); [reflexivity|].
  unfold updateVisual. simpl classList. rewrite Hc.
  destruct (Qle_bool 1 _ && negb (truthy (animationTriggered (setDisplay "block" vis))));
    simpl; destruct (Qltb _ 0.5 && _); reflexivity.
Qed.

(** X8.  The controller never writes the opacity of a card container:
    over any succession of ticks the container stays a card container and
    keeps the [style.opacity] it had, while its display and its reveal
    classes are managed; its cards are shown by the classes alone. *)
Theorem card_container_opacity_untouched (windowHeight fadeZone : Q) (rects : list Rect) :
  forall (sv : SectionView) (k : nat) (vis : Element),
    nth_error (sectionVisuals sv) k = Some vis ->
    contains "challenge-cards" (classList vis) = true ->
    exists vis',
      nth_error (sectionVisuals (fst (runTicks windowHeight fadeZone rects sv))) k = Some vis'
      /\ contains "challenge-cards" (classList vis') = true
      /\ style_opacity vis' = style_opacity vis.
Proof.
  induction rects as [|r rs IH]; intros sv k vis Hk Hc.
  - exists vis. simpl. repeat split; assumption.
  - simpl.
    destruct (ControllerFacts.updateSection_visual windowHeight fadeZone (scrollTo r sv) k vis Hk)
      as [Hn _].
    destruct (updateSection windowHeight fadeZone (scrollTo r sv)) as [sv1 ts1].
    simpl in Hn.
    pose proof (ControllerFacts.tickVisual_cards windowHeight fadeZone (container sv) k vis Hc r)
      as Hc1.
    destruct (IH sv1 k _ Hn Hc1) as (vis' & Hn' & Hc' & Ho').
    destruct (runTicks windowHeight fadeZone rs sv1) as [sv2 ts2].
    simpl in *. exists vis'. split; [exact Hn'|]. split; [exact Hc'|].
    rewrite Ho'. apply tickVisual_card_opacity. exact Hc.
Qed.

Lemma card_container_opacity_untouched_witness :
  let cards := mkElement ["visual-container"; "challenge-cards"] "" "" None in
  let sv := mkView (mkContainer "section-02" "fullscreen-section" "section-02" "250vh")
                   (mkRect 0 1000 1000) None None [] [cards] in
  exists vis',
    nth_error (sectionVisuals
                 (fst (runTicks 1000 0.7 [mkRect 0 1000 1000; mkRect (-600) 400 1000] sv))) 0
      = Some vis'
    /\ contains "challenge-cards" (classList vis') = true
    /\ style_opacity vis' = None.
Proof.
  intros cards sv.
  exact (card_container_opacity_untouched 1000 0.7
           [mkRect 0 1000 1000; mkRect (-600) 400 1000] sv 0 cards eq_refl eq_refl).
Defined.

End ControllerMore.

(** ** Lengths in texts *)

Module ParseFacts.
Import StringFacts.

Lemma length_append (a b : string) :
  String.length (a ++ b) = (String.length a + String.length b)%nat.
Proof. induction a as [|c a IH]; simpl; [reflexivity | rewrite IH; reflexivity]. Qed.

Lemma dropChars_app (a s : string) (k : nat) :
  dropChars (String.length a + k) (a ++ s) = dropChars k s.
Proof. induction a as [|c a IH]; simpl; [reflexivity | exact IH]. Qed.

(** A text ends with a suffix no longer than the unit it was built with
    exactly when that unit ends with it. *)
Lemma endsWith_app (a unit suffix : string) :
  (String.length suffix <= String.length unit)%nat ->
  endsWith (a ++ unit) suffix = endsWith unit suffix.
Proof.
  intro H. unfold endsWith. rewrite length_append.
  replace (String.length a + String.length unit - String.length suffix)%nat
    with (String.length a + (String.length unit - String.length suffix))%nat by lia.
  rewrite dropChars_app.
  destruct (Nat.leb_spec (String.length suffix) (String.length unit)); [|lia].
  destruct (Nat.leb_spec (String.length suffix) (String.length a + String.length unit)); [|lia].
  reflexivity.
Qed.

Lemma allDigits_dropChars (k : nat) (s : string) :
  allDigits s = true -> allDigits (dropChars k s) = true.
Proof.
  revert s. induction k as [|k IH]; intros [|c s] H; simpl; try assumption.
  apply IH. simpl in H. apply andb_true_iff in H. apply H.
Qed.

(** A text of digits ends with no unit. *)
Lemma endsWith_digits (s suffix : string) (c : ascii) (r : string) :
  allDigits s = true -> suffix = String c r -> isDigit c = false ->
  endsWith s suffix = false.
Proof.
  intros Hs -> Hc. unfold endsWith.
  apply andb_false_iff. right. apply String.eqb_neq. intro E.
  pose proof (allDigits_dropChars (String.length s - String.length (String c r)) s Hs) as Hd.
  rewrite E in Hd. simpl in Hd. rewrite Hc in Hd. discriminate.
Qed.

Lemma readDigits_uint (d : uint) :
  forall (acc k : nat) (rest : string),
    endsNumber rest = true ->
    readDigits (NilEmpty.string_of_uint d ++ rest) (Z.of_nat acc) k
    = (Z.of_nat (Nat.of_uint_acc d acc), (k + nb_digits d)%nat, rest).
Proof.
  induction d; intros acc k rest Hrest;
    try (change (String.append (NilEmpty.string_of_uint (?D d)) rest)
           with (String ?c (NilEmpty.string_of_uint d ++ rest)));
    cbn [NilEmpty.string_of_uint String.append nb_digits Nat.of_uint_acc readDigits].
  1:{ rewrite Nat.add_0_r. destruct rest as [|c r]; [reflexivity|].
      simpl in Hrest. simpl. destruct (isDigit c); [discriminate | reflexivity]. }
  all: match goal with
       | |- context [isDigit ?c] => change (isDigit c) with true; cbv iota
       end.
  all: match goal with
       | |- readDigits _ ?a _ = (Z.of_nat (Nat.of_uint_acc _ ?b), _, _) =>
           replace a with (Z.of_nat b)
             by (rewrite ?Nat2Z.inj_succ, Nat.tail_mul_spec, Nat2Z.inj_mul;
                 change (Z.of_nat 10) with 10%Z;
                 match goal with
                 | |- context [digitVal ?c] =>
                     let v := eval vm_compute in (digitVal c) in change (digitVal c) with v
                 end; lia)
       end.
  all: rewrite IHd by assumption; f_equal; f_equal; lia.
Qed.

Lemma to_uint_nonnil (n : nat) : Nat.to_uint n <> Nil.
Proof.
  pose proof (Unsigned.to_of (Nat.to_uint n)) as H.
  rewrite Unsigned.of_to in H. rewrite H.
  unfold unorm. destruct (nzhead (Nat.to_uint n)); discriminate.
Qed.

Lemma natToString_shape (n : nat) :
  exists c s, natToString n = String c s /\ isDigit c = true.
Proof.
  pose proof (natToString_digits n) as H.
  unfold natToString in *.
  pose proof (to_uint_nonnil n) as Hn.
  destruct (Nat.to_uint n); try (exfalso; apply Hn; reflexivity);
    simpl in H |- *; eexists _, _; (split; [reflexivity | reflexivity]).
Qed.

Lemma digit_not_sign (c : ascii) :
  isDigit c = true ->
  isSpace c = false /\ (nat_of_ascii c =? 45)%nat = false /\ (nat_of_ascii c =? 43)%nat = false.
Proof.
  destruct c as [[] [] [] [] [] [] [] []]; vm_compute; intro H;
    repeat split; try reflexivity; discriminate.
Qed.

(** [parseFloat] reads a printed index back, whatever unit follows. *)
Lemma parseFloat_printed (n : nat) (rest : string) :
  endsNumber rest = true ->
  jsEq (parseFloat (natToString n ++ rest)) (Num (inject_Z (Z.of_nat n))).
Proof.
  intro Hrest.
  destruct (natToString_shape n) as (c & s & Hs & Hc).
  destruct (digit_not_sign c Hc) as (Hsp & Hm & Hp).
  pose proof (readDigits_uint (Nat.to_uint n) 0 0 rest Hrest) as Hr.
  change (NilEmpty.string_of_uint (Nat.to_uint n)) with (natToString n) in Hr.
  change (Nat.of_uint_acc (Nat.to_uint n) 0) with (Nat.of_uint (Nat.to_uint n)) in Hr.
  rewrite Unsigned.of_to in Hr. simpl Z.of_nat in Hr at 1.
  assert (Hnb : (0 + nb_digits (Nat.to_uint n) <> 0)%nat).
  { pose proof (to_uint_nonnil n). destruct (Nat.to_uint n); simpl; congruence. }
  unfold parseFloat. rewrite Hs in *. cbn [String.append skipSpaces] in *.
  rewrite Hsp, Hm, Hp. rewrite Hr.
  assert (Hfrac :
    match rest with
    | String c0 r => if (nat_of_ascii c0 =? 46)%nat then readDigits r 0%Z 0%nat else (0%Z, 0%nat, rest)
    | EmptyString => (0%Z, 0%nat, rest)
    end = (0%Z, 0%nat, rest)).
  { destruct rest as [|c0 r]; [reflexivity|]. simpl in Hrest.
    destruct (nat_of_ascii c0 =? 46)%nat; [|reflexivity].
    rewrite !andb_true_iff in Hrest. destruct Hrest as [[[_ H] _] _]. discriminate. }
  rewrite Hfrac.
  assert (Hexp : readExponent rest = 0%Z).
  { destruct rest as [|c0 r]; [reflexivity|]. simpl in Hrest. unfold readExponent.
    rewrite !andb_true_iff, !negb_true_iff in Hrest. destruct Hrest as [[[_ _] He] HE].
    rewrite He, HE. reflexivity. }
  rewrite Hexp.
  destruct (_ + 0 =? 0)%nat eqn:E.
  - apply Nat.eqb_eq in E. lia.
  - simpl. unfold Qeq. simpl. lia.
Qed.

End ParseFacts.

(** ** Overlap detector, further *)

Module ValidatorMore.
Import Schema Validator StringFacts ArrayFacts ValidatorFacts ParseFacts.

(** X9.  [boxesOverlap] does not depend on the order of its two boxes,
    NaN edges included. *)
Theorem boxesOverlap_symmetric (box1 box2 : Bounds) :
  boxesOverlap box1 box2 = boxesOverlap box2 box1.
Proof.
  unfold boxesOverlap, jsGt.
  destruct (jsLt (right box1) (left box2)), (jsLt (right box2) (left box1)),
           (jsLt (bottom box1) (top box2)), (jsLt (bottom box2) (top box1));
    reflexivity.
Qed.

Lemma append_nil_r (s : string) : s ++ "" = s.
Proof. induction s as [|c s IH]; simpl; [reflexivity | rewrite IH; reflexivity]. Qed.

Lemma truthy_printed (n : nat) (unit : string) : truthy (natToString n ++ unit) = true.
Proof. destruct (natToString_shape n) as (c & s & -> & _). reflexivity. Qed.

Lemma parsesTo_scaled (x : JsNum) (v size : Q) :
  jsEq x (Num v) -> parsesTo (Some (jsMul (jsDiv x (Num 100)) (Num size))) (v / 100 * size).
Proof.
  destruct x as [|q]; simpl; [intros [] | intro H]. rewrite H. reflexivity.
Qed.

Lemma parsesTo_plain (x : JsNum) (v : Q) : jsEq x (Num v) -> parsesTo (Some x) v.
Proof. destruct x as [|q]; simpl; [intros [] | intro H; exact H]. Qed.

(** X10.  [parsePosition] reads a printed length back according to its
    unit: pixels and plain numbers as they are, a percentage of the
    container size passed in, [vh] and [vw] as hundredths of the window
    height and width whatever the container is. *)
Theorem parsePosition_units (w : Window) (n : nat) (containerSize : Q) :
  let v := inject_Z (Z.of_nat n) in
  parsesTo (parsePosition w (Some (natToString n ++ "px")) containerSize) v
  /\ parsesTo (parsePosition w (Some (natToString n ++ "%")) containerSize)
              (v / 100 * containerSize)
  /\ parsesTo (parsePosition w (Some (natToString n ++ "vh")) containerSize)
              (v / 100 * innerHeight w)
  /\ parsesTo (parsePosition w (Some (natToString n ++ "vw")) containerSize)
              (v / 100 * innerWidth w)
  /\ parsesTo (parsePosition w (Some (natToString n)) containerSize) v.
Proof.
  intro v. unfold parsePosition, truthyStr, strToString, withDefault.
  rewrite !truthy_printed.
  assert (Hn : truthy (natToString n) = true)
    by (rewrite <- (append_nil_r (natToString n)); apply truthy_printed).
  rewrite Hn. cbn [negb].
  repeat split.
  - rewrite (endsWith_app _ "px" "%"), (endsWith_app _ "px" "px") by (simpl; lia).
    apply parsesTo_plain, parseFloat_printed. reflexivity.
  - rewrite (endsWith_app _ "%" "%") by (simpl; lia).
    apply parsesTo_scaled, parseFloat_printed. reflexivity.
  - rewrite (endsWith_app _ "vh" "%"), (endsWith_app _ "vh" "px"), (endsWith_app _ "vh" "vh")
      by (simpl; lia).
    apply parsesTo_scaled, parseFloat_printed. reflexivity.
  - rewrite (endsWith_app _ "vw" "%"), (endsWith_app _ "vw" "px"), (endsWith_app _ "vw" "vh"),
      (endsWith_app _ "vw" "vw") by (simpl; lia).
    apply parsesTo_scaled, parseFloat_printed. reflexivity.
  - rewrite (endsWith_digits (natToString n) "%" "%" ""),
      (endsWith_digits (natToString n) "px" "p" "x"),
      (endsWith_digits (natToString n) "vh" "v" "h"),
      (endsWith_digits (natToString n) "vw" "v" "w")
      by (try apply natToString_digits; reflexivity).
    apply parsesTo_plain. rewrite <- (append_nil_r (natToString n)).
    apply parseFloat_printed. reflexivity.
Qed.





(** X12.  The box of an image layer has the size of the layer: when the
    width and the height are numbers, the bottom edge is the top edge
    plus the height and the right edge the left edge plus the width,
    whichever of the four edges the position declares. *)
Theorem calculateImageBounds_box_size (w : Window) (pos : Position) (sz : option Size) (b : Bounds) (wd ht : Q) :
  calculateImageBounds w pos sz = Some b ->
  width b = Num wd -> height b = Num ht ->
  jsEq (bottom b) (jsAdd (top b) (Num ht))
  /\ jsEq (right b) (jsAdd (left b) (Num wd)).
Proof.
  unfold calculateImageBounds.
  destruct (edgeOf w (pos_top pos) (innerHeight w)) as [t|];
  destruct (edgeOf w (pos_bottom pos) (innerHeight w)) as [bt|];
  destruct (edgeOf w (pos_left pos) (innerWidth w)) as [l|];
  destruct (edgeOf w (pos_right pos) (innerWidth w)) as [r|];
  cbn [p_top p_left p_right p_bottom p_width p_height toNumber withDefault];
  intro H; try discriminate; injection H as <-;
  cbn [top bottom left right width height]; intros -> ->.
  all: split.
  all: repeat match goal with
              | x : JsNum |- _ => destruct x
              end; simpl; auto; try ring.
Qed.

Lemma calculateImageBounds_box_size_witness :
  let w := mkWindow 1920 1080 in
  let pos := mkPosition None (Some "5vw") (Some "10vh") None in
  let sz := Some (mkSize (Some "200px") (Some "300px")) in
  exists b, calculateImageBounds w pos sz = Some b
            /\ jsEq (bottom b) (jsAdd (top b) (Num 300))
            /\ jsEq (right b) (jsAdd (left b) (Num 200)).
Proof.
  intros w pos sz.
  destruct (calculateImageBounds w pos sz) as [b|] eqn:E; [|discriminate E].
  exists b. split; [reflexivity|].
  apply (calculateImageBounds_box_size w pos sz b 200 300 E).
  - injection E as <-. vm_compute. reflexivity.
  - injection E as <-. vm_compute. reflexivity.
Defined.

Lemma edgeOf_some (w : Window) (value : option string) (containerSize : Q) :
  truthyStr value = true -> exists n, edgeOf w value containerSize = Some n.
Proof.
  intro H. unfold edgeOf. rewrite H. apply parsePosition_truthy. exact H.
Qed.

(** X13.  When a position declares both edges of an axis, the far edge
    wins: with a [bottom] the box is the one of the position without its
    [top], with a [right] the one of the position without its [left]. *)
Theorem calculateImageBounds_far_edge_wins (w : Window) (pos : Position) (sz : option Size) :
  (truthyStr (pos_bottom pos) = true ->
   calculateImageBounds w pos sz
   = calculateImageBounds w (mkPosition None (pos_right pos) (pos_bottom pos) (pos_left pos)) sz)
  /\ (truthyStr (pos_right pos) = true ->
      calculateImageBounds w pos sz
      = calculateImageBounds w (mkPosition (pos_top pos) (pos_right pos) (pos_bottom pos) None) sz).
Proof.
  split; intro H.
  - destruct (edgeOf_some w _ (innerHeight w) H) as [n Hn].
    unfold calculateImageBounds. cbn [pos_top pos_left pos_right pos_bottom].
    rewrite Hn. change (edgeOf w None (innerHeight w)) with (@None JsNum).
    destruct (edgeOf w (pos_top pos) (innerHeight w));
      destruct (edgeOf w (pos_left pos) (innerWidth w));
      destruct (edgeOf w (pos_right pos) (innerWidth w)); reflexivity.
  - destruct (edgeOf_some w _ (innerWidth w) H) as [n Hn].
    unfold calculateImageBounds. cbn [pos_top pos_left pos_right pos_bottom].
    rewrite Hn. change (edgeOf w None (innerWidth w)) with (@None JsNum).
    destruct (edgeOf w (pos_top pos) (innerHeight w));
      destruct (edgeOf w (pos_left pos) (innerWidth w));
      destruct (edgeOf w (pos_bottom pos) (innerHeight w)); reflexivity.
Qed.

Section WarningCount.

Variables (w : Window) (heroBounds : Bounds).

Lemma length_layerWarnings (layer : Layer) (idx : nat) :
  List.length (layerWarnings w heroBounds layer idx)
  = ((if overlapping w heroBounds layer then 1 else 0)
     + (if isCustom layer then 1 else 0))%nat.
Proof.
  unfold layerWarnings, overlapping, isCustom. rewrite length_app.
  destruct (typeIs "image" (type layer)); destruct (position layer) as [pos|];
    try destruct (calculateImageBounds w pos (size layer)) as [b|];
    try destruct (boxesOverlap heroBounds b);
    destruct (typeIs "custom" (type layer)); reflexivity.
Qed.

Lemma length_concat_layerWarnings (ls : list Layer) :
  forall idx,
    List.length (List.concat (imapFrom idx (layerWarnings w heroBounds) ls))
    = (count (overlapping w heroBounds) ls + count isCustom ls)%nat.
Proof.
  induction ls as [|layer ls IH]; intro idx; [reflexivity|].
  cbn [imapFrom List.concat]. rewrite length_app, IH, length_layerWarnings.
  change (layer :: ls) with ([layer] ++ ls)%list.
  rewrite !count_app, !count_single. lia.
Qed.

Lemma count_zero_forall {A : Type} (p : A -> bool) (l : list A) :
  count p l = 0%nat <-> forall x, In x l -> p x = false.
Proof.
  unfold count. induction l as [|a l IH]; simpl.
  - split; [intros _ x [] | reflexivity].
  - destruct (p a) eqn:E; simpl.
    + split; [discriminate | intro H; rewrite (H a) in E by (left; reflexivity); discriminate].
    + rewrite IH. split.
      * intros H x [<-|Hx]; [exact E | apply H, Hx].
      * intros H x Hx. apply H. right. exact Hx.
Qed.

End WarningCount.

(** X14.  [validateHeroOverlap] reports one warning for every image layer
    whose box meets the hero box and one for every custom layer, and
    nothing else: background layers and images without a position add
    nothing; the section is valid exactly when it has no custom layer and
    no image layer meeting the hero box. *)
Theorem validateHeroOverlap_warning_count (w : Window) (section : Section) (r : OverlapResult) :
  validateHeroOverlap w section = Some r ->
  exists h heroBounds ls,
    hero section = Some h
    /\ calculateHeroBounds w h = Some heroBounds
    /\ layers section = Some ls
    /\ List.length (warnings r)
       = (count (overlapping w heroBounds) ls + count isCustom ls)%nat
    /\ (valid r = true <->
        forall layer, In layer ls ->
          overlapping w heroBounds layer = false /\ isCustom layer = false).
Proof.
  unfold validateHeroOverlap. intro Hr.
  destruct (hero section) as [h|]; [|discriminate].
  destruct (calculateHeroBounds w h) as [hb|] eqn:Ehb; [|discriminate].
  destruct (layers section) as [ls|]; [|discriminate].
  injection Hr as <-. cbn [valid warnings].
  exists h, hb, ls.
  split; [reflexivity|]. split; [exact Ehb|]. split; [reflexivity|].
  rewrite forEach_checkLayer, length_concat_layerWarnings.
  split; [reflexivity|].
  rewrite Nat.eqb_eq. split.
  - intros H layer Hin.
    assert (H1 : count (overlapping w hb) ls = 0%nat) by lia.
    assert (H2 : count isCustom ls = 0%nat) by lia.
    split; [apply (proj1 (count_zero_forall _ _) H1) | apply (proj1 (count_zero_forall _ _) H2)];
      exact Hin.
  - intro H.
    assert (H1 : count (overlapping w hb) ls = 0%nat)
      by (apply count_zero_forall; intros x Hx; apply H, Hx).
    assert (H2 : count isCustom ls = 0%nat)
      by (apply count_zero_forall; intros x Hx; apply H, Hx).
    lia.
Qed.

Lemma validateHeroOverlap_warning_count_witness :
  let w := mkWindow 1920 1080 in
  let centre :=
    mkLayer (Some "image") (Some "moon.png") None (Some 20%Z)
            (Some (mkPosition (Some "45%") None None (Some "45%"))) None in
  let cards := mkLayer (Some "custom") None (Some "challenge-cards") (Some 30%Z) None None in
  let sky := mkLayer (Some "background") None None (Some 0%Z) None None in
  let section :=
    mkSection (Some "section-01") (Some (mkHero (Some "One<br>Two") None None))
              (Some [sky; centre; cards]) None in
  exists r, validateHeroOverlap w section = Some r
            /\ List.length (warnings r) = 2%nat /\ valid r = false.
Proof.
  intros w centre cards sky section.
  destruct (validateHeroOverlap w section) as [r|] eqn:E; [|discriminate E].
  exists r.
  destruct (validateHeroOverlap_warning_count w section r E) as (h & hb & ls & _ & _ & _ & Hn & _).
  injection E as <-. split; [reflexivity|]. split; vm_compute; reflexivity.
Defined.

Lemma validateHeroOverlap_valid (w : Window) (section : Section) (r : OverlapResult) :
  validateHeroOverlap w section = Some r ->
  valid r = (List.length (warnings r) =? 0)%nat.
Proof.
  unfold validateHeroOverlap.
  destruct (hero section) as [h|]; [|discriminate].
  destruct (calculateHeroBounds w h) as [hb|]; [|discriminate].
  destruct (layers section) as [ls|]; [|discriminate].
  intro H. injection H as <-. reflexivity.
Qed.

Lemma forEachFrom_prefixWarning (idx : nat) (section : Section) (ws : list string) :
  let prefixed := fun warning =>
    "Section " ++ natToString idx ++ " (" ++ strToString (id section) ++ "): " ++ warning in
  forall (k : nat) (acc : list string),
    forEachFrom k (fun warning (_ : nat) all => prefixWarning idx section warning all) ws acc
    = (acc ++ map prefixed ws)%list.
Proof.
  intro prefixed. induction ws as [|x ws IH]; intros k acc; simpl.
  - rewrite app_nil_r. reflexivity.
  - rewrite IH. unfold prefixWarning, push. rewrite <- app_assoc. reflexivity.
Qed.

Lemma collectSection_pushes (w : Window) (section : Section) (idx : nat) (acc : list string) :
  collectSection w section idx (Some acc)
  = match validateHeroOverlap w section with
    | Some _ => Some (acc ++ sectionWarnings w section idx)%list
    | None => None
    end.
Proof.
  unfold collectSection, sectionWarnings.
  destruct (validateHeroOverlap w section) as [r|] eqn:E; [|reflexivity].
  rewrite (validateHeroOverlap_valid w section r E).
  unfold forEach. destruct (warnings r) as [|x ws] eqn:Ew.
  - simpl. rewrite app_nil_r. reflexivity.
  - cbn [List.length Nat.eqb negb]. rewrite forEachFrom_prefixWarning. reflexivity.
Qed.

Lemma forEachFrom_collectSection_none (w : Window) (secs : list Section) :
  forall idx, forEachFrom idx (collectSection w) secs None = None.
Proof. induction secs as [|s secs IH]; intro idx; [reflexivity | apply IH]. Qed.

Lemma forEachFrom_collectSection (w : Window) (secs : list Section) :
  forall (idx : nat) (acc : list string),
    match forEachFrom idx (collectSection w) secs (Some acc) with
    | Some out =>
        (forall s, In s secs -> exists rs, validateHeroOverlap w s = Some rs)
        /\ out = (acc ++ List.concat (imapFrom idx (sectionWarnings w) secs))%list
    | None => exists s, In s secs /\ validateHeroOverlap w s = None
    end.
Proof.
  induction secs as [|s secs IH]; intros idx acc.
  - simpl. split; [intros s [] | rewrite app_nil_r; reflexivity].
  - cbn [forEachFrom imapFrom List.concat]. rewrite collectSection_pushes.
    destruct (validateHeroOverlap w s) as [rs|] eqn:E.
    + specialize (IH (S idx) (acc ++ sectionWarnings w s idx)%list).
      destruct (forEachFrom (S idx) (collectSection w) secs
                  (Some (acc ++ sectionWarnings w s idx)%list)) as [out|].
      * destruct IH as [Hall ->]. split.
        -- intros s' [<-|Hin]; [exists rs; exact E | apply Hall, Hin].
        -- rewrite <- app_assoc. reflexivity.
      * destruct IH as (s' & Hin & Hs'). exists s'. split; [right; exact Hin | exact Hs'].
    + rewrite forEachFrom_collectSection_none. exists s. split; [left; reflexivity | exact E].
Qed.

Lemma sectionWarnings_empty (w : Window) (secs : list Section) :
  forall idx,
    List.length (List.concat (imapFrom idx (sectionWarnings w) secs)) = 0%nat
    <-> forall s rs, In s secs -> validateHeroOverlap w s = Some rs -> valid rs = true.
Proof.
  induction secs as [|s secs IH]; intro idx.
  - simpl. split; [intros _ s rs [] | reflexivity].
  - cbn [imapFrom List.concat]. rewrite length_app. split.
    + intros H s' rs [<-|Hin] Hrs.
      * rewrite (validateHeroOverlap_valid w s rs Hrs). apply Nat.eqb_eq.
        unfold sectionWarnings in H. rewrite Hrs, length_map in H. lia.
      * apply (proj1 (IH (S idx))) with s'; [lia | exact Hin | exact Hrs].
    + intro H.
      assert (H2 : List.length (List.concat (imapFrom (S idx) (sectionWarnings w) secs)) = 0%nat).
      { apply IH. intros s' rs Hin. apply H. right. exact Hin. }
      rewrite H2, Nat.add_0_r. unfold sectionWarnings.
      destruct (validateHeroOverlap w s) as [rs|] eqn:E; [|reflexivity].
      rewrite length_map.
      pose proof (H s rs (or_introl eq_refl) E) as Hv.
      rewrite (validateHeroOverlap_valid w s rs E) in Hv. apply Nat.eqb_eq in Hv. exact Hv.
Qed.

(** X15.  [validateAllSections] gathers, section after section, the
    warnings of [validateHeroOverlap], each behind the index and the id of
    its section, and is valid exactly when every section is; it throws
    when the schema has no sections array or when one section cannot be
    read (no hero, no hero text or no layers array), whatever the other
    sections are. *)
Theorem validateAllSections_report (w : Window) (schema : SectionSchema) :
  match validateAllSections w schema with
  | Some r =>
      exists secs,
        sections schema = Some secs
        /\ (forall s, In s secs -> exists rs, validateHeroOverlap w s = Some rs)
        /\ warnings r = List.concat (imapFrom 0 (sectionWarnings w) secs)
        /\ (valid r = true <->
            forall s rs, In s secs -> validateHeroOverlap w s = Some rs -> valid rs = true)
  | None =>
      sections schema = None
      \/ exists secs s,
           sections schema = Some secs /\ In s secs /\ validateHeroOverlap w s = None
  end.
Proof.
  unfold validateAllSections, forEach.
  destruct (sections schema) as [secs|]; [|left; reflexivity].
  pose proof (forEachFrom_collectSection w secs 0 []) as H.
  destruct (forEachFrom 0 (collectSection w) secs (Some [])) as [out|].
  - destruct H as [Hall ->]. cbn [app valid warnings].
    exists secs. split; [reflexivity|]. split; [exact Hall|]. split; [reflexivity|].
    rewrite Nat.eqb_eq. apply sectionWarnings_empty.
  - destruct H as (s & Hin & Hs). right. exists secs, s.
    split; [reflexivity|]. split; assumption.
Qed.

(** The hero box, spelled out: the container height is the only part
    that depends on the font size. *)
Lemma calculateHeroBounds_shape (w : Window) (h : HeroConfig) (txt : string) :
  text h = Some txt ->
  exists est : JsNum,
    let containerWidth := Num (Qmin (1000 + 40 * 2) (innerWidth w)) in
    let containerHeight := jsAdd (jsMul (Num (lineCountOf txt)) (jsMul est (Num 1.2))) (Num (40 * 2)) in
    calculateHeroBounds w h
    = Some (mkBounds (jsSub (Num (innerHeight w / 2)) (jsDiv containerHeight (Num 2)))
                     (jsAdd (Num (innerWidth w / 2)) (jsDiv containerWidth (Num 2)))
                     (jsAdd (Num (innerHeight w / 2)) (jsDiv containerHeight (Num 2)))
                     (jsSub (Num (innerWidth w / 2)) (jsDiv containerWidth (Num 2)))
                     containerWidth containerHeight)
    /\ (truthyStr (fontSize h) = false ->
        est = jsDiv (jsMul (Num (innerWidth w)) (parseFloat "6vw")) (Num 100))
    /\ (forall fs, fontSize h = Some fs -> truthy fs = true -> includes fs "clamp" = false ->
        est = Num 80).
Proof.
  intro Ht. unfold calculateHeroBounds. rewrite Ht.
  eexists. cbv zeta. split; [reflexivity|]. split.
  - intros ->. reflexivity.
  - intros fs -> Hfs Hc. cbn [truthyStr strToString withDefault]. rewrite Hfs, Hc. reflexivity.
Qed.

Lemma Qhalf_sum (a b : Q) : (a / 2 - b / 2) + (a / 2 + b / 2) == a.
Proof. field. Qed.

Lemma Qhalf_diff (a b : Q) : (a / 2 + b / 2) - (a / 2 - b / 2) == b.
Proof. field. Qed.

Lemma Qhalf_nonneg (a b : Q) : b <= a -> 0 <= a / 2 - b / 2.
Proof.
  intro H. assert (E : a / 2 - b / 2 == (a - b) * (1 # 2)) by field.
  rewrite E. apply Qmult_le_0_compat; lra.
Qed.

Lemma Qhalf_within (a b : Q) : b <= a -> a / 2 + b / 2 <= a.
Proof.
  intro H. assert (E : a / 2 + b / 2 == a - (a - b) * (1 # 2)) by field.
  rewrite E. assert (0 <= (a - b) * (1 # 2)) by (apply Qmult_le_0_compat; lra). lra.
Qed.

(** X16.  The hero box is centred in the window: its left and right
    edges are numbers at equal distance from the middle, its width is the
    smaller of 1080 pixels and the window width, so that it never sticks
    out of the window; its top and bottom edges are at equal distance from
    the middle line and [height] apart, whatever the font size. *)
Theorem calculateHeroBounds_centred (w : Window) (h : HeroConfig) (txt : string) :
  text h = Some txt ->
  exists b l r wd,
    calculateHeroBounds w h = Some b
    /\ left b = Num l /\ right b = Num r /\ width b = Num wd
    /\ wd <= 1080 /\ wd <= innerWidth w
    /\ (1080 <= innerWidth w -> wd == 1080)
    /\ r - l == wd /\ l + r == innerWidth w
    /\ 0 <= l /\ r <= innerWidth w
    /\ (forall t bt ht, top b = Num t -> bottom b = Num bt -> height b = Num ht ->
          bt - t == ht /\ t + bt == innerHeight w).
Proof.
  intro Ht. destruct (calculateHeroBounds_shape w h txt Ht) as (est & Hb & _).
  cbv zeta in Hb. rewrite Hb.
  set (wd := Qmin (1000 + 40 * 2) (innerWidth w)).
  assert (Hw1 : wd <= 1080).
  { unfold wd. eapply Qle_trans; [apply Q.le_min_l|]. apply Qle_bool_imp_le. reflexivity. }
  assert (Hw2 : wd <= innerWidth w) by apply Q.le_min_r.
  eexists _, (innerWidth w / 2 - wd / 2), (innerWidth w / 2 + wd / 2), wd.
  split; [reflexivity|]. cbn [top bottom left right width height].
  split; [reflexivity|]. split; [reflexivity|]. split; [reflexivity|].
  split; [exact Hw1|]. split; [exact Hw2|].
  split.
  { intro H. unfold wd. rewrite Q.min_l; [reflexivity|].
    eapply Qle_trans; [|exact H]. apply Qle_bool_imp_le. reflexivity. }
  split; [apply Qhalf_diff|]. split; [apply Qhalf_sum|].
  split; [apply Qhalf_nonneg; exact Hw2|]. split; [apply Qhalf_within; exact Hw2|].
  intros t bt ht.
  destruct (jsAdd (jsMul (Num (lineCountOf txt)) (jsMul est (Num 1.2))) (Num (40 * 2)))
    as [|ch]; cbn [jsSub jsAdd jsDiv jsLift2]; [discriminate|].
  intros [= <-] [= <-] [= <-]. split; [apply Qhalf_diff | apply Qhalf_sum].
Qed.

Lemma calculateHeroBounds_centred_witness :
  exists b, calculateHeroBounds (mkWindow 1920 1080) (mkHero (Some "One<br>Two") None None) = Some b
            /\ jsEq (left b) (Num 420) /\ jsEq (right b) (Num 1500).
Proof.
  destruct (calculateHeroBounds_centred (mkWindow 1920 1080) (mkHero (Some "One<br>Two") None None)
              "One<br>Two" eq_refl)
    as (b & l & r & wd & Hb & Hl & Hr & _).
  exists b. split; [exact Hb|].
  injection Hb as <-. split; vm_compute; reflexivity.
Defined.

Lemma parseFloat_6vw : jsEq (parseFloat "6vw") (Num 6).
Proof. apply (parseFloat_printed 6 "vw"). reflexivity. Qed.

(** X17.  Without a font size of its own the hero is measured with the
    default [clamp(2.5rem, 6vw, 5rem)], of which only the middle value is
    read: each line counts for 1.2 times six hundredths of the window
    width, plus 80 pixels of padding, the minimum and the maximum of the
    clamp playing no part. *)
Theorem calculateHeroBounds_default_font (w : Window) (h : HeroConfig) (txt : string) :
  text h = Some txt -> truthyStr (fontSize h) = false ->
  exists b ht,
    calculateHeroBounds w h = Some b /\ height b = Num ht
    /\ ht == lineCountOf txt * (innerWidth w * 6 / 100 * 1.2) + 80.
Proof.
  intros Ht Hf. destruct (calculateHeroBounds_shape w h txt Ht) as (est & Hb & Hest & _).
  cbv zeta in Hb. rewrite Hb, (Hest Hf).
  pose proof parseFloat_6vw as H6.
  destruct (parseFloat "6vw") as [|q]; [destruct H6|]. simpl in H6.
  eexists _, _. split; [reflexivity|]. cbn [height jsAdd jsMul jsDiv jsLift2].
  split; [reflexivity|]. rewrite H6. ring.
Qed.

Lemma calculateHeroBounds_default_font_witness :
  exists b ht,
    calculateHeroBounds (mkWindow 1000 800) (mkHero (Some "One<br>Two") None (Some "")) = Some b
    /\ height b = Num ht /\ ht == 224.
Proof.
  destruct (calculateHeroBounds_default_font (mkWindow 1000 800)
              (mkHero (Some "One<br>Two") None (Some "")) "One<br>Two" eq_refl eq_refl)
    as (b & ht & Hb & Hh & E).
  exists b, ht. split; [exact Hb|]. split; [exact Hh|].
  rewrite E. vm_compute. reflexivity.
Defined.

(** X18.  A font size that is not a [clamp(...)] is not read at all:
    whatever it says ([120px], [2rem]), the hero is measured at 80 pixels
    per line, 96 with the line height, plus 80 pixels of padding, in a
    window of any size. *)
Theorem calculateHeroBounds_fixed_font (w : Window) (h : HeroConfig) (txt fs : string) :
  text h = Some txt -> fontSize h = Some fs ->
  truthy fs = true -> includes fs "clamp" = false ->
  exists b ht,
    calculateHeroBounds w h = Some b /\ height b = Num ht
    /\ ht == lineCountOf txt * 96 + 80.
Proof.
  intros Ht Hf Hfs Hc. destruct (calculateHeroBounds_shape w h txt Ht) as (est & Hb & _ & Hest).
  cbv zeta in Hb. rewrite Hb, (Hest fs Hf Hfs Hc).
  eexists _, _. split; [reflexivity|]. cbn [height jsAdd jsMul jsDiv jsLift2].
  split; [reflexivity|]. ring.
Qed.

Lemma calculateHeroBounds_fixed_font_witness :
  exists b ht,
    calculateHeroBounds (mkWindow 1000 800) (mkHero (Some "One<br>Two") None (Some "200px")) = Some b
    /\ height b = Num ht /\ ht == 272.
Proof.
  destruct (calculateHeroBounds_fixed_font (mkWindow 1000 800)
              (mkHero (Some "One<br>Two") None (Some "200px")) "One<br>Two" "200px"
              eq_refl eq_refl eq_refl eq_refl)
    as (b & ht & Hb & Hh & E).
  exists b, ht. split; [exact Hb|]. split; [exact Hh|].
  rewrite E. vm_compute. reflexivity.
Defined.

Lemma calculateHeroBounds_sides (w : Window) (h : HeroConfig) (heroBounds : Bounds) :
  calculateHeroBounds w h = Some heroBounds -> 1080 <= innerWidth w ->
  exists l r,
    left heroBounds = Num l /\ right heroBounds = Num r
    /\ l == innerWidth w * (1 # 2) - 540 /\ r == innerWidth w * (1 # 2) + 540.
Proof.
  intros H Hw.
  destruct (text h) as [txt|] eqn:Ht;
    [|unfold calculateHeroBounds in H; rewrite Ht in H; discriminate].
  destruct (calculateHeroBounds_shape w h txt Ht) as (est & Hb & _).
  cbv zeta in Hb. rewrite Hb in H. injection H as <-.
  cbn [left right jsAdd jsSub jsDiv jsLift2].
  assert (E : Qmin (1000 + 40 * 2) (innerWidth w) == 1080).
  { rewrite Q.min_l; [reflexivity|].
    eapply Qle_trans; [|exact Hw]. apply Qle_bool_imp_le. reflexivity. }
  eexists _, _. split; [reflexivity|]. split; [reflexivity|].
  rewrite E. split; field.
Qed.

Lemma edge_5vw (w : Window) :
  exists x, edgeOf w (Some "5vw") (innerWidth w) = Some (Num x)
            /\ x == (5 # 100) * innerWidth w.
Proof.
  pose proof (parseFloat_printed 5 "vw" eq_refl) as H.
  change (natToString 5 ++ "vw") with "5vw" in H.
  unfold edgeOf, parsePosition.
  change (truthyStr (Some "5vw")) with true.
  change (strToString (Some "5vw")) with "5vw".
  change (endsWith "5vw" "%") with false.
  change (endsWith "5vw" "px") with false.
  change (endsWith "5vw" "vh") with false.
  change (endsWith "5vw" "vw") with true.
  cbn [negb].
  destruct (parseFloat "5vw") as [|q]; [destruct H|]. simpl in H.
  eexists. split; [reflexivity|]. rewrite H. field.
Qed.

(** An image 100 pixels wide, five hundredths of the window width away
    from the left edge. *)
Lemma left_anchored (w : Window) (t bt : option string) (b : Bounds) :
  calculateImageBounds w (mkPosition t None bt (Some "5vw")) None = Some b ->
  exists x, x == (5 # 100) * innerWidth w /\ left b = Num x /\ right b = Num (x + 100).
Proof.
  destruct (edge_5vw w) as (x & Hx & Ex).
  unfold calculateImageBounds. cbn [pos_top pos_left pos_right pos_bottom].
  rewrite Hx. change (edgeOf w None (innerWidth w)) with (@None JsNum).
  change (dimOf w None (innerWidth w)) with (Num 100).
  change (dimOf w None (innerHeight w)) with (Num 100).
  destruct (edgeOf w t (innerHeight w)); destruct (edgeOf w bt (innerHeight w));
    cbn [p_top p_left p_right p_bottom p_width p_height toNumber withDefault];
    intro H; try discriminate; injection H as <-;
    exists x; (split; [exact Ex|]); split; reflexivity.
Qed.

(** The same image, as far from the right edge. *)
Lemma right_anchored (w : Window) (t bt : option string) (b : Bounds) :
  calculateImageBounds w (mkPosition t (Some "5vw") bt None) None = Some b ->
  exists x, x == (5 # 100) * innerWidth w
            /\ left b = Num (innerWidth w - x - 100) /\ right b = Num (innerWidth w - x).
Proof.
  destruct (edge_5vw w) as (x & Hx & Ex).
  unfold calculateImageBounds. cbn [pos_top pos_left pos_right pos_bottom].
  rewrite Hx. change (edgeOf w None (innerWidth w)) with (@None JsNum).
  change (dimOf w None (innerWidth w)) with (Num 100).
  change (dimOf w None (innerHeight w)) with (Num 100).
  destruct (edgeOf w t (innerHeight w)); destruct (edgeOf w bt (innerHeight w));
    cbn [p_top p_left p_right p_bottom p_width p_height toNumber withDefault];
    intro H; try discriminate; injection H as <-;
    exists x; (split; [exact Ex|]); split; reflexivity.
Qed.

Lemma clear_on_the_left (heroBounds b : Bounds) (l x : Q) :
  left heroBounds = Num l -> right b = Num x -> x < l ->
  boxesOverlap heroBounds b = false.
Proof.
  intros Hl Hr H. unfold boxesOverlap, jsGt. rewrite Hl, Hr.
  cbn [jsLt]. rewrite (proj2 (Qltb_lt x l) H).
  rewrite orb_true_r. reflexivity.
Qed.

Lemma clear_on_the_right (heroBounds b : Bounds) (r x : Q) :
  right heroBounds = Num r -> left b = Num x -> r < x ->
  boxesOverlap heroBounds b = false.
Proof.
  intros Hr Hl H. unfold boxesOverlap. rewrite Hl, Hr.
  cbn [jsLt]. rewrite (proj2 (Qltb_lt r x) H). reflexivity.
Qed.

Ltac evalPreset :=
  match goal with
  | |- context [Positioning.asPosition ?p] =>
      let v := eval vm_compute in (Positioning.asPosition p) in
      change (Positioning.asPosition p) with v
  end.

(** X19.  In a window wider than 12800/9 pixels (about 1422) an image of
    the default size placed with a corner, side or safe-zone preset of
    [positions] never meets the hero box, whatever the hero text, its
    font size and the window height: the image ends 100 pixels after five
    hundredths of the width, the hero starts 540 pixels before the
    middle. *)
Theorem side_presets_clear_of_hero (w : Window) (h : HeroConfig) (heroBounds : Bounds) (name : string) :
  (12800 # 9) < innerWidth w ->
  In name ["top-left"; "top-right"; "bottom-left"; "bottom-right";
           "left-center"; "right-center";
           "left-top-safe"; "left-bottom-safe"; "right-top-safe"; "right-bottom-safe"] ->
  calculateHeroBounds w h = Some heroBounds ->
  snd (Positioning.getPosition name) = []
  /\ exists b,
       calculateImageBounds w (Positioning.asPosition (fst (Positioning.getPosition name))) None
       = Some b
       /\ boxesOverlap heroBounds b = false.
Proof.
  intros Hw Hname Hhero.
  assert (Hw' : 1080 <= innerWidth w).
  { apply Qlt_le_weak. eapply Qle_lt_trans; [|exact Hw]. apply Qle_bool_imp_le. reflexivity. }
  destruct (calculateHeroBounds_sides w h heroBounds Hhero Hw') as (l & r & Hl & Hr & El & Er).
  assert (Left : forall t bt,
            resolvable (mkPosition t None bt (Some "5vw")) = true ->
            exists b, calculateImageBounds w (mkPosition t None bt (Some "5vw")) None = Some b
                      /\ boxesOverlap heroBounds b = false).
  { intros t bt Hres.
    destruct (calculateImageBounds w (mkPosition t None bt (Some "5vw")) None) as [b|] eqn:E.
    - exists b. split; [reflexivity|].
      destruct (left_anchored w t bt b E) as (x & Ex & _ & Hbr).
      apply (clear_on_the_left heroBounds b l (x + 100) Hl Hbr).
      rewrite Ex, El. clear -Hw. lra.
    - apply calculateImageBounds_none in E. congruence. }
  assert (Right : forall t bt,
            resolvable (mkPosition t (Some "5vw") bt None) = true ->
            exists b, calculateImageBounds w (mkPosition t (Some "5vw") bt None) None = Some b
                      /\ boxesOverlap heroBounds b = false).
  { intros t bt Hres.
    destruct (calculateImageBounds w (mkPosition t (Some "5vw") bt None) None) as [b|] eqn:E.
    - exists b. split; [reflexivity|].
      destruct (right_anchored w t bt b E) as (x & Ex & Hbl & _).
      apply (clear_on_the_right heroBounds b r (innerWidth w - x - 100) Hr Hbl).
      rewrite Ex, Er. clear -Hw. lra.
    - apply calculateImageBounds_none in E. congruence. }
  simpl in Hname.
  repeat (destruct Hname as [<-|Hname]); try destruct Hname;
    (split; [reflexivity|]); evalPreset;
    first [apply Left; reflexivity | apply Right; reflexivity].
Qed.

Lemma side_presets_clear_of_hero_witness :
  let w := mkWindow 1920 1080 in
  let h := mkHero (Some "A Different<br>Feedback Loop") None None in
  exists heroBounds b,
    calculateHeroBounds w h = Some heroBounds
    /\ calculateImageBounds w
         (Positioning.asPosition (fst (Positioning.getPosition "right-bottom-safe"))) None
       = Some b
    /\ boxesOverlap heroBounds b = false.
Proof.
  intros w h.
  destruct (calculateHeroBounds w h) as [hb|] eqn:E; [|discriminate E].
  destruct (side_presets_clear_of_hero w h hb "right-bottom-safe") as (_ & b & Hb & Ho).
  - vm_compute. reflexivity.
  - simpl. tauto.
  - exact E.
  - exists hb, b. split; [reflexivity|]. split; assumption.
Defined.

End ValidatorMore.

(** ** Schema validator, further *)

Module SchemaMore.
Import Schema StringFacts ArrayFacts SchemaFacts.

Lemma typeIs_eq (name : string) (t : option string) :
  typeIs name t = true -> t = Some name.
Proof.
  destruct t as [s|]; simpl; [|discriminate].
  intro H. apply String.eqb_eq in H. subst s. reflexivity.
Qed.

Lemma layerErrors_nil (pre : string) (layer : Layer) (j : nat) :
  layerErrors pre layer j = [] <-> wellFormedLayer layer = true.
Proof.
  unfold layerErrors, wellFormedLayer, otherwiseValid. cbv zeta.
  destruct (zExceeds (z layer)); destruct (includesType (type layer));
    destruct (typeIs "image" (type layer) && negb (truthyStr (src layer)));
    destruct (typeIs "custom" (type layer) && negb (truthyStr (renderer layer)));
    simpl; split; intro H; try reflexivity; discriminate.
Qed.

Lemma length_layerErrors (pre : string) (layer : Layer) (j : nat) :
  (List.length (layerErrors pre layer j) <= 2)%nat.
Proof.
  unfold layerErrors. cbv zeta. rewrite !length_app.
  destruct (typeIs "image" (type layer)) eqn:Ei.
  - rewrite (typeIs_eq _ _ Ei). simpl.
    destruct (zExceeds (z layer)); destruct (negb (truthyStr (src layer))); simpl; lia.
  - destruct (typeIs "custom" (type layer)) eqn:Ec.
    + rewrite (typeIs_eq _ _ Ec). simpl.
      destruct (zExceeds (z layer)); destruct (negb (truthyStr (renderer layer))); simpl; lia.
    + simpl.
      destruct (zExceeds (z layer)); destruct (negb (includesType (type layer))); simpl; lia.
Qed.

Lemma concat_imapFrom_nil {A : Type} (g : A -> nat -> list string) (p : A -> bool) (l : list A) :
  (forall x i, g x i = [] <-> p x = true) ->
  forall idx, List.concat (imapFrom idx g l) = [] <-> forallb p l = true.
Proof.
  intro Hg. induction l as [|a l IH]; intro idx; simpl.
  - split; reflexivity.
  - rewrite andb_true_iff, <- (Hg a idx), <- (IH (S idx)). split.
    + intro H. apply app_eq_nil in H. exact H.
    + intros [-> ->]. reflexivity.
Qed.

Lemma sectionErrors_nil (section : Section) (idx : nat) :
  sectionErrors section idx = [] <-> wellFormedSection section = true.
Proof.
  unfold sectionErrors, wellFormedSection, sectionHeaderErrors. cbv zeta.
  destruct (layers section) as [ls|].
  - pose proof (concat_imapFrom_nil (layerErrors (sectionPrefix idx)) wellFormedLayer ls
                  (layerErrors_nil (sectionPrefix idx)) 0) as Hls.
    destruct (truthyStr (id section)); destruct (hero section) as [h|];
      try destruct (truthyStr (text h)); simpl;
      try (split; intro H; discriminate).
    exact Hls.
  - rewrite !andb_false_r. split; [|discriminate].
    intro H. apply app_eq_nil in H. destruct H as [H _].
    apply app_eq_nil in H. destruct H as [_ H].
    apply app_eq_nil in H. destruct H as [_ H].
    apply app_eq_nil in H. destruct H as [_ H]. discriminate.
Qed.

(** X20.  [validateSchema] accepts a scene exactly when it has a sections
    array of which every section passes every check: an id, a hero with a
    text, a layers array, and for every layer a z-index that is not above
    50, a known type, a [src] on an image and a renderer name on a custom
    layer; a scene without sections array is rejected with one error. *)
Theorem validateSchema_valid_iff (schema : SectionSchema) :
  (valid (validateSchema schema) = true <->
   exists secs, sections schema = Some secs /\ forallb wellFormedSection secs = true)
  /\ (valid (validateSchema schema) = true <-> errors (validateSchema schema) = [])
  /\ (sections schema = None ->
      valid (validateSchema schema) = false
      /\ List.length (errors (validateSchema schema)) = 1%nat).
Proof.
  destruct (sections schema) as [secs|] eqn:Es.
  - destruct (validateSchema_errors schema secs Es) as [He Hv].
    rewrite Hv, He. rewrite Nat.eqb_eq, length_zero_iff_nil.
    split; [|split; [reflexivity | discriminate]].
    rewrite (concat_imapFrom_nil sectionErrors wellFormedSection secs sectionErrors_nil 0).
    split.
    + intro H. exists secs. split; [reflexivity | exact H].
    + intros (secs' & [= <-] & H). exact H.
  - unfold validateSchema. rewrite Es. cbn [valid errors].
    split; [|split].
    + split; [discriminate | intros (secs & H & _); discriminate].
    + split; [discriminate | intro H; apply (f_equal (@List.length string)) in H; discriminate].
    + intros _. split; reflexivity.
Qed.

(** X21.  A layer is answered with at most two errors, all of them
    naming its section and its index, and with none exactly when it
    passes every check of the validator. *)
Theorem layer_error_bound (schema : SectionSchema) (secs : list Section) (i : nat) (section : Section) (ls : list Layer) (j : nat) (layer : Layer) :
  sections schema = Some secs ->
  nth_error secs i = Some section ->
  layers section = Some ls ->
  nth_error ls j = Some layer ->
  (count (isLayerErrorFor i j) (errors (validateSchema schema)) <= 2)%nat
  /\ (count (isLayerErrorFor i j) (errors (validateSchema schema)) = 0%nat
      <-> wellFormedLayer layer = true).
Proof.
  intros Hs Hi Hl Hj.
  rewrite (layer_error_count schema secs i section ls j layer Hs Hi Hl Hj).
  split; [apply length_layerErrors|].
  rewrite length_zero_iff_nil. apply layerErrors_nil.
Qed.

Lemma layer_error_bound_witness :
  let deep := mkLayer (Some "image") None None (Some 150%Z) None None in
  let fine := mkLayer (Some "background") None None (Some 0%Z) None None in
  let section :=
    mkSection (Some "section-00") (Some (mkHero (Some "Hello") None None))
              (Some [fine; deep]) None in
  let schema := mkSchema (Some [section]) in
  count (isLayerErrorFor 0 1) (errors (validateSchema schema)) = 2%nat
  /\ (count (isLayerErrorFor 0 1) (errors (validateSchema schema)) <= 2)%nat.
Proof.
  intros deep fine section schema.
  split; [vm_compute; reflexivity|].
  apply (layer_error_bound schema [section] 0 section [fine; deep] 1 deep);
    reflexivity.
Defined.

(** X22.  A section without hero is reported twice: as missing its hero
    config and as a hero missing its text. *)
Theorem missing_hero_reported_twice (schema : SectionSchema) (secs : list Section) (i : nat) (section : Section) :
  sections schema = Some secs ->
  nth_error secs i = Some section ->
  hero section = None ->
  In (sectionPrefix i ++ ": missing hero config") (errors (validateSchema schema))
  /\ In (sectionPrefix i ++ ": hero missing text") (errors (validateSchema schema)).
Proof.
  intros Hs Hi Hh.
  destruct (validateSchema_errors schema secs Hs) as [-> _].
  split; apply (in_concat_imapFrom sectionErrors _ secs 0 i section Hi);
    unfold sectionErrors, sectionHeaderErrors; cbv zeta; rewrite Hh;
    apply in_or_app; left; apply in_or_app; right.
  - apply in_or_app. left. left. reflexivity.
  - apply in_or_app. right. apply in_or_app. left. left. reflexivity.
Qed.

Lemma missing_hero_reported_twice_witness :
  let section := mkSection (Some "section-00") None (Some []) None in
  let schema := mkSchema (Some [section]) in
  errors (validateSchema schema)
  = ["Section 0: missing hero config"; "Section 0: hero missing text"]
  /\ In (sectionPrefix 0 ++ ": missing hero config") (errors (validateSchema schema)).
Proof.
  intros section schema. split; [vm_compute; reflexivity|].
  apply (missing_hero_reported_twice schema [section] 0 section); reflexivity.
Defined.

End SchemaMore.
